(** * vulcan-agent: retry executor, aborted-checks cache, Docker backend
      and shutdown sequence

    A shallow embedding of the Go packages [retryer], [aborted], [docker]
    and [cmd] of the agent, followed by the properties established for
    them.  Go values are modelled as follows:

    - [error] values are trees built by [errors.New] and by
      [fmt.Errorf] with a [%w] verb; [errors.Is] walks the wrap chain;
    - Go [int] is a 64-bit two's-complement integer, modelled in [Z] with
      the wrap-around of [++] written out;
    - [map[string]struct{}] is a finite set of strings ([gset string]);
    - [[]byte] is [list byte], [[]string] is [list string] (a nil slice is
      the empty list);
    - calls to collaborators that live outside the repository (the HTTP
      client, the backoff controller, the Docker client) are answered by
      an explicit environment, and the calls performed are recorded in
      counters and event traces. *)

From Stdlib Require Import ZArith List String Lia.
From Stdlib.Strings Require Import Byte.
From stdpp Require Import base decidable option list strings gmap pretty.

Local Open Scope string_scope.
Local Open Scope list_scope.
Local Open Scope Z_scope.

(* ===================================================================== *)
(** * Part I: the program                                                 *)
(* ===================================================================== *)

(** ** Package [errors] (Go standard library) *)

Module errors.

(** An error is either a leaf created by [errors.New] or a value created
    by [fmt.Errorf] with one [%w] operand, which records its cause.  The
    [text] of a wrapping error is its fully formatted message.  Go compares
    leaf errors by identity; here two leaves are the same error when they
    carry the same text, and every sentinel used by the agent has a text of
    its own. *)
Inductive error : Type :=
| New (text : string)
| Wrap (text : string) (cause : error).

#[global] Instance error_eq_dec : EqDecision error.
Proof. solve_decision. Defined.

(** [err.Error()] *)
Definition Error (err : error) : string :=
  match err with
  | New text => text
  | Wrap text _ => text
  end.

(** [errors.Unwrap] *)
Definition Unwrap (err : error) : option error :=
  match err with
  | New _ => None
  | Wrap _ cause => Some cause
  end.

(** [errors.Is(err, target)]: [err] or one of the errors on its wrap chain
    equals [target]. *)
Fixpoint Is (err target : error) : bool :=
  if bool_decide (err = target) then true
  else match err with
       | New _ => false
       | Wrap _ cause => Is cause target
       end.

(** [errors.Is(err, target)] for an [err] that may be nil and a target that
    is not. *)
Definition IsNil (err : option error) (target : error) : bool :=
  match err with
  | None => false
  | Some e => Is e target
  end.

(** [fmt.Errorf(prefix + "%w", cause)]: the message is the prefix followed
    by the message of the cause. *)
Definition Errorf_w (prefix : string) (cause : error) : error :=
  Wrap (prefix +:+ Error cause) cause.

(** The [%v] rendering of a possibly nil error. *)
Definition show (err : option error) : string :=
  match err with
  | None => "<nil>"
  | Some e => Error e
  end.

End errors.

Import errors.

(** ** Package [context] and [net/http] sentinels *)

Module context.
Definition Canceled : error := New "context canceled".
Definition DeadlineExceeded : error := New "context deadline exceeded".
End context.

Module http.
Definition ErrServerClosed : error := New "http: Server closed".
Definition StatusOK : Z := 200.
End http.

(** ** Go's [int] *)

Module int.
Definition min : Z := - 2 ^ 63.
Definition max : Z := 2 ^ 63 - 1.
(** Reduction of a mathematical integer to the 64-bit signed range. *)
Definition wrap (z : Z) : Z := (z + 2 ^ 63) mod 2 ^ 64 - 2 ^ 63.
(** [x++] *)
Definition incr (x : Z) : Z := wrap (x + 1).
End int.

(** ** Package [backoff] (github.com/lestrrat-go/backoff), as far as the
    agent observes it *)

Module backoff.

(** What a [select] over [retry.Done()] and [retry.Next()] observes. *)
Inductive signal : Type := Next | Done.

(** A policy is described by the controller that [policy.Start] returns:
    [p i] is the case that fires the [i]-th time (from 0) the program
    selects on the controller. *)
Definition Policy : Type := nat -> signal.

(** [backoff.Continue(b)] at the [i]-th selection. *)
Definition Continue (p : Policy) (i : nat) : bool :=
  match p i with
  | Done => false
  | Next => true
  end.

End backoff.

(** ** Package [retryer] *)

Module retryer.

Definition ErrPermanent : error := New "permanet error".

(** Messages handed to the logging collaborator by [WithRetries]. *)
Inductive entry : Type :=
| LogPermanent (op : string) (err : error)
| LogFinished (retry : Z) (op : string) (err : error)
| LogRetrying (retry : Z) (op : string) (err : error).

Record Retryer : Type := {
  policy : backoff.Policy;
  retries : Z
}.

Section WithRetries.

(** The operation is a closure: it reads and updates a state [St] and
    returns an error or nil. *)
Context {St : Type}.

(** What a call of [WithRetries] leaves behind: the returned error, the
    state after the last invocation of the operation, the number of
    invocations and the log. *)
Record outcome : Type := {
  ret : option error;
  final : St;
  calls : nat;
  logged : list entry
}.

(** The [for] loop of [WithRetries].  [count] is the local counter
    [retries] of the source, [waits] the number of selections performed on
    the backoff controller, [n] the number of invocations so far.  The loop
    of the source has no bound of its own, so the model takes [fuel]:
    [None] means that [fuel] iterations were not enough. *)
Fixpoint loop (fuel : nat) (b : Retryer) (op : string)
    (exec : St -> option error * St)
    (count : Z) (waits : nat) (st : St) (n : nat) (log : list entry)
    : option outcome :=
  match fuel with
  | O => None
  | S fuel' =>
    let '(err, st) := exec st in
    let n := S n in
    let count := int.incr count in
    match err with
    | None => Some {| ret := None; final := st; calls := n; logged := log |}
    | Some e =>
      if Is e ErrPermanent then
        Some {| ret := Some e; final := st; calls := n;
                logged := log ++ [LogPermanent op e] |}
      else if count =? b.(retries) then
        Some {| ret := Some e; final := st; calls := n;
                logged := log ++ [LogFinished count op e] |}
      else
        match b.(policy) waits with
        | backoff.Done =>
          Some {| ret := Some e; final := st; calls := n;
                  logged := log ++ [LogFinished count op e] |}
        | backoff.Next =>
          loop fuel' b op exec count (S waits) st n
               (log ++ [LogRetrying count op e])
        end
    end
  end.

(** [func (b Retryer) WithRetries(op string, exec func() error) error] *)
Definition WithRetries (fuel : nat) (b : Retryer) (op : string)
    (exec : St -> option error * St) (st : St) : option outcome :=
  loop fuel b op exec (-1) 0 st 0 [].

(** The entries logged by [m] consecutive retries that start with the
    counter at [count] and the operation in state [st]. *)
Fixpoint retry_log (op : string) (exec : St -> option error * St)
    (count : Z) (m : nat) (st : St) : list entry :=
  match m with
  | O => []
  | S m' =>
    match exec st with
    | (Some e, st') =>
      LogRetrying (int.incr count) op e
        :: retry_log op exec (int.incr count) m' st'
    | (None, _) => []
    end
  end.

(** The state the operation sees at its [k]-th invocation, counted from 0. *)
Fixpoint state_at (exec : St -> option error * St) (k : nat) (st : St) : St :=
  match k with
  | O => st
  | S k' => state_at exec k' (exec st).2
  end.

(** The error returned by the [k]-th invocation, counted from 0. *)
Definition error_at (exec : St -> option error * St) (k : nat) (st : St)
    : option error :=
  (exec (state_at exec k st)).1.

End WithRetries.

Arguments outcome : clear implicits.

(** [NewRetryer(retries, interval, l)]: the policy is built by the backoff
    library from the interval, a jitter factor and [retries] as its maximum
    number of retries; [NewExponential] stands for that construction. *)
Definition NewRetryer (NewExponential : Z -> Z -> backoff.Policy)
    (retries interval : Z) : Retryer :=
  {| policy := NewExponential interval retries; retries := retries |}.

End retryer.

(** ** Package [encoding/json] (Go standard library), as far as
    [Decoder.Decode] into a [[]string] is concerned *)

Module json.

#[local] Set Warnings "-register-all".

Inductive value : Type :=
| JNull
| JBool (b : bool)
| JNumber (n : Z)
| JString (s : string)
| JArray (elems : list value)
| JObject (members : list (string * value)).

(** What the decoder finds in the body of a response: no complete JSON
    value (a syntax error, a truncated text, a failed read), or a first
    complete JSON value. *)
Inductive body : Type :=
| Malformed
| Document (v : value).

Definition SyntaxError : error := New "invalid character looking for beginning of value".

Definition UnmarshalTypeError (Value type : string) : error :=
  New ("json: cannot unmarshal " +:+ Value +:+ " into Go value of type " +:+ type).

(** Storing one array element into a slot of type [string] that holds
    [old].  A string is stored, [null] leaves the slot as it is, and any
    other value leaves the slot as it is and reports a type mismatch. *)
Definition store_elem (v : value) (old : string) : string * option error :=
  match v with
  | JString s => (s, None)
  | JNull => (old, None)
  | JBool _ => (old, Some (UnmarshalTypeError "bool" "string"))
  | JNumber _ => (old, Some (UnmarshalTypeError "number" "string"))
  | JArray _ => (old, Some (UnmarshalTypeError "array" "string"))
  | JObject _ => (old, Some (UnmarshalTypeError "object" "string"))
  end.

(** Decoding the elements of an array into the slice [dst].  Element [i]
    is decoded into slot [i]; the slice is grown with zero values (empty
    strings) when it is too short and cut to the number of elements when
    it is too long.  A type mismatch does not stop the decoding: as the
    package documents, a value that is not appropriate for its target is
    skipped, the decoding is completed as best it can, and the earliest
    mismatch is returned at the end ([saved]). *)
Fixpoint store_elems (elems : list value) (dst : list string)
    (saved : option error) : list string * option error :=
  match elems with
  | [] => ([], saved)
  | v :: elems' =>
    let '(s, err) := store_elem v (hd "" dst) in
    let saved := match saved with Some e => Some e | None => err end in
    let '(rest, saved) := store_elems elems' (tl dst) saved in
    (s :: rest, saved)
  end.

(** [dec.Decode(&dst)] for [dst] of type [[]string]: the new contents of
    [dst] and the returned error.  A body without a complete JSON value is
    rejected before anything is stored; [null] sets the slice to nil; a
    value of another kind than array is a type mismatch that stores
    nothing. *)
Definition Decode (b : body) (dst : list string) : list string * option error :=
  match b with
  | Malformed => (dst, Some SyntaxError)
  | Document JNull => ([], None)
  | Document (JArray elems) => store_elems elems dst None
  | Document (JBool _) => (dst, Some (UnmarshalTypeError "bool" "[]string"))
  | Document (JNumber _) => (dst, Some (UnmarshalTypeError "number" "[]string"))
  | Document (JString _) => (dst, Some (UnmarshalTypeError "string" "[]string"))
  | Document (JObject _) => (dst, Some (UnmarshalTypeError "object" "[]string"))
  end.

End json.

(** ** Package [aborted] *)

Module aborted.

(** What [c.client.Get(c.addr)] returns: an error, or a response with its
    status code and body. *)
Inductive response : Type :=
| GetError (err : error)
| Response (StatusCode : Z) (Body : json.body).

(** The remote endpoint seen through the HTTP client: [answers i] is what
    the [i]-th request (from 0) gets, [requests] counts the requests sent
    so far. *)
Record network : Type := {
  answers : nat -> response;
  requests : nat
}.

(** The [Checks] struct.  The lock only serialises accesses to [canceled];
    the model runs one call at a time.  The [retryer] field holds the
    agent's retry executor. *)
Record Checks : Type := {
  canceled : gset string;
  retryer : retryer.Retryer
}.

(** The variables the closure passed to [WithRetries] in [get] works on:
    the captured [ids] and the network. *)
Record fetch_state : Type := {
  ids : list string;
  net : network
}.

(** The closure of [get]. *)
Definition fetch (st : fetch_state) : option error * fetch_state :=
  let n := {| answers := answers (net st); requests := S (requests (net st)) |} in
  match answers (net st) (requests (net st)) with
  | GetError err => (Some err, {| ids := ids st; net := n |})
  | Response StatusCode Body =>
    if negb (StatusCode =? http.StatusOK) then
      let errStr :=
        "error getting curent aborted checks, unexpected status code: "
        +:+ pretty StatusCode in
      (Some (Errorf_w (errStr +:+ ", ") retryer.ErrPermanent),
       {| ids := ids st; net := n |})
    else
      let '(ids', err) := json.Decode Body [""] in
      match err with
      | Some err =>
        let errStr := "error reading current aborted checks: " +:+ Error err in
        (Some (Errorf_w (errStr +:+ ", ") retryer.ErrPermanent),
         {| ids := ids'; net := n |})
      | None => (None, {| ids := ids'; net := n |})
      end
  end.

(** [func (c *Checks) get() ([]string, error)].  The closure declares an
    [err] of its own with [:=], and the value returned by [WithRetries] is
    not kept: the [err] that [get] returns is the one declared in its [var]
    block, which nothing assigns. *)
Definition get (fuel : nat) (c : Checks) (n : network)
    : option (list string * option error * network) :=
  let ids0 : list string := [] in
  let err : option error := None in
  match retryer.WithRetries fuel (retryer c) "GetAbortedChecks" fetch
          {| ids := ids0; net := n |} with
  | None => None
  | Some out => Some (ids (retryer.final out), err, net (retryer.final out))
  end.

(** The new map filled by the [for] loop of [IsAborted]. *)
Definition fill (ids : list string) : gset string :=
  foldl (fun m id => m ∪ {[ id ]}) ∅ ids.

(** [func (c *Checks) IsAborted(ID string) (bool, error)]: the returned
    pair, the receiver afterwards and the network afterwards. *)
Definition IsAborted (fuel : nat) (c : Checks) (n : network) (ID : string)
    : option ((bool * option error) * Checks * network) :=
  if bool_decide (ID ∈ canceled c) then Some ((true, None), c, n)
  else
    match get fuel c n with
    | None => None
    | Some (ids, Some err, n') => Some ((false, Some err), c, n')
    | Some (ids, None, n') =>
      let c' := {| canceled := fill ids; retryer := retryer c |} in
      Some ((bool_decide (ID ∈ canceled c'), None), c', n')
    end.

(** [New(l, addr, retryer)], for an address that parses as a URL. *)
Definition New (r : retryer.Retryer) : Checks :=
  {| canceled := ∅; retryer := r |}.

End aborted.

(** ** Package [bytes] (Go standard library) *)

Module bytes.

(** [bytes.Join(s, sep)] *)
Fixpoint Join (s : list (list byte)) (sep : list byte) : list byte :=
  match s with
  | [] => []
  | [x] => x
  | x :: rest => x ++ sep ++ Join rest sep
  end.

End bytes.

(** ** Package [stdcopy] (github.com/docker/docker/pkg/stdcopy) *)

Module stdcopy.

(** The stream tag in the header of a frame of a multiplexed log stream.
    [Unrecognized] stands for every tag that makes [StdCopy] give up. *)
Inductive StdType : Type := Stdin | Stdout | Stderr | Unrecognized.

Record frame : Type := {
  tag : StdType;
  payload : list byte
}.

(** A log stream as the reader delivers it: its frames, then end of file
    or a read error. *)
Record stream : Type := {
  frames : list frame;
  failure : option error
}.

(** The loop of [StdCopy]: the frames tagged [Stdin] or [Stdout] are
    written to [dstout], those tagged [Stderr] to [dsterr]. *)
Fixpoint copy (dstout dsterr : list byte) (fs : list frame)
    (failure : option error) : list byte * list byte * option error :=
  match fs with
  | [] => (dstout, dsterr, failure)
  | f :: fs' =>
    match tag f with
    | Stdin | Stdout => copy (dstout ++ payload f) dsterr fs' failure
    | Stderr => copy dstout (dsterr ++ payload f) fs' failure
    | Unrecognized => (dstout, dsterr, Some (New "Unrecognized input header"))
    end
  end.

#[global] Instance StdType_eq_dec : EqDecision StdType.
Proof. solve_decision. Defined.

(** The bytes the container wrote on the stream tagged [t]: the payloads
    of the frames with that tag, in order. *)
Definition written (t : StdType) (src : stream) : list byte :=
  concat (payload <$> filter (fun f => tag f = t) (frames src)).

(** [StdCopy(dstout, dsterr, src)] on two empty buffers: their contents
    afterwards and the error. *)
Definition StdCopy (src : stream) : list byte * list byte * option error :=
  copy [] [] (frames src) (failure src).

End stdcopy.

(** ** Package [docker]: the execution backend *)

Module docker.

(** [abortTimeout = 5 * time.Second], in nanoseconds. *)
Definition abortTimeout : Z := 5 * 1000000000.

Record RunParams : Type := {
  CheckID : string;
  CheckTypeName : string;
  ChecktypeVersion : string;
  Image : string;
  Target : string;
  AssetType : string;
  Options : string;
  RequiredVars : list string
}.

Record RunResult : Type := {
  Output : list byte;
  Error : option error
}.

(** The fields of [config.RegistryConfig] the backend reads; the jitter
    factor only randomises delays. *)
Record RegistryConfig : Type := {
  Server : string;
  BackoffInterval : Z;
  BackoffMaxRetries : Z
}.

(** The part of [dockerutils.RunConfig] that [getRunConfig] fills in. *)
Record RunConfig : Type := {
  Hostname : string;
  ConfigImage : string;
  Env : list string
}.

(** The names of the environment variables handed to a check, constants of
    package [backend]. *)
Record VarNames : Type := {
  CheckIDVar : string;
  ChecktypeNameVar : string;
  ChecktypeVersionVar : string;
  CheckTargetVar : string;
  CheckAssetTypeVar : string;
  CheckOptionsVar : string;
  AgentAddressVar : string
}.

(** A [DockerClient]: what each method answers.  [Pull] is called once per
    attempt and may answer differently each time; the other methods are
    called at most once in a run. *)
Record DockerClient : Type := {
  Create : RunConfig -> string -> string * option error;
  ContainerStop : string -> option error;
  ContainerRemove : string -> option error;
  ContainerStart : string -> option error;
  ContainerWait : string -> Z * option error;
  ContainerLogs : string -> stdcopy.stream * option error;
  Pull : nat -> string -> option error
}.

Record Backend : Type := {
  config : RegistryConfig;
  agentAddr : string;
  checkVars : gmap string string;
  cli : DockerClient
}.

(** The context a call is given: the one the caller passed to [Run], or a
    fresh [context.Background()]. *)
Inductive ctx : Type := Caller | Background.

(** What a run does, in order: the calls on the Docker client, the values
    sent on the result channel, the closing of the log reader and the
    messages logged at error level. *)
Inductive event : Type :=
| EvPull (c : ctx) (imageRef : string)
| EvCreate (c : ctx) (cfg : RunConfig) (name : string)
| EvContainerStart (c : ctx) (containerID : string)
| EvContainerWait (c : ctx) (containerID : string)
| EvContainerStop (c : ctx) (containerID : string) (timeout : Z)
| EvContainerLogs (c : ctx) (container : string) (ShowStdout ShowStderr : bool)
| EvContainerRemove (c : ctx) (containerID : string) (Force : bool)
| EvSend (r : RunResult)
| EvClose
| EvErrorf (msg : string).

(** [readContainerLogs(r)] *)
Definition readContainerLogs (r : stdcopy.stream) : list byte * option error :=
  let '(bout, berr, err) := stdcopy.StdCopy r in
  match err with
  | Some err => ([], Some err)
  | None =>
    let outContent := bout in
    let errContent := berr in
    let contents := ([] ++ [outContent]) ++ [errContent] in
    (bytes.Join contents [Byte.x0a], None)
  end.

Section Backend.

Variable names : VarNames.
(** The controller started from the policy that [backoff.NewExponential]
    builds for an interval and a maximum number of retries. *)
Variable NewExponential : Z -> Z -> backoff.Policy.

(** [dockerVars(requiredVars, envVars)]; a missing key yields the empty
    string. *)
Definition dockerVars (requiredVars : list string)
    (envVars : gmap string string) : list string :=
  foldl (fun dockerVars requiredVar =>
           dockerVars ++ [requiredVar +:+ "=" +:+ default "" (envVars !! requiredVar)])
        [] requiredVars.

(** [func (b *Backend) getRunConfig(params) dockerutils.RunConfig] *)
Definition getRunConfig (b : Backend) (params : RunParams) : RunConfig :=
  let vars := dockerVars (RequiredVars params) (checkVars b) in
  {| Hostname := CheckID params;
     ConfigImage := Image params;
     Env := [ CheckIDVar names +:+ "=" +:+ CheckID params;
              ChecktypeNameVar names +:+ "=" +:+ CheckTypeName params;
              ChecktypeVersionVar names +:+ "=" +:+ ChecktypeVersion params;
              CheckTargetVar names +:+ "=" +:+ Target params;
              CheckAssetTypeVar names +:+ "=" +:+ AssetType params;
              CheckOptionsVar names +:+ "=" +:+ Options params;
              AgentAddressVar names +:+ "=" +:+ agentAddr b ] ++ vars |}.

(** The function deferred by [run] once the container exists.  [err] is
    the variable [err] of [run] at the time [run] returns. *)
Definition cleanup (b : Backend) (params : RunParams) (contID : string)
    (err : option error) : list event :=
  EvContainerRemove Background contID true ::
  match ContainerRemove (cli b) contID with
  | Some removeErr =>
    [EvErrorf ("error removing container " +:+ CheckID params +:+ ": "
               +:+ errors.show err)]
  | None => []
  end.

(** [func (b *Backend) run(ctx, params, res)]: the events of the routine,
    the deferred calls last. *)
Definition run (b : Backend) (params : RunParams) : list event :=
  let cfg := getRunConfig b params in
  let '(contID, err) := Create (cli b) cfg (CheckID params) in
  EvCreate Caller cfg (CheckID params) ::
  match err with
  | Some err => [EvSend {| Output := []; Error := Some err |}]
  | None =>
    EvContainerStart Caller contID ::
    match ContainerStart (cli b) contID with
    | Some err =>
      let err' := Errorf_w ("error starting container for check "
                            +:+ CheckID params +:+ ": ") err in
      EvSend {| Output := []; Error := Some err' |}
        :: cleanup b params contID (Some err)
    | None =>
      EvContainerWait Caller contID ::
      let err := (ContainerWait (cli b) contID).2 in
      if bool_decide (err <> None) && negb (IsNil err context.Canceled)
         && negb (IsNil err context.DeadlineExceeded) then
        let err' := Errorf_w ("error running container for check "
                              +:+ CheckID params +:+ ": ")
                             (default (New "") err) in
        EvSend {| Output := []; Error := Some err' |}
          :: cleanup b params contID err
      else if IsNil err context.Canceled
              || IsNil err context.DeadlineExceeded then
        let timeout := abortTimeout in
        EvContainerStop Background contID timeout
          :: EvSend {| Output := []; Error := err |}
          :: cleanup b params contID err
      else
        EvContainerLogs Caller contID true true ::
        match ContainerLogs (cli b) contID with
        | (_, Some err) =>
          let err' := Errorf_w ("error getting logs for check "
                                +:+ CheckID params +:+ ": ") err in
          EvSend {| Output := []; Error := Some err' |}
            :: cleanup b params contID (Some err)
        | (r, None) =>
          match readContainerLogs r with
          | (_, Some err) =>
            let err' := Errorf_w ("error reading logs for check "
                                  +:+ CheckID params +:+ ": ") err in
            EvSend {| Output := []; Error := Some err' |}
              :: EvClose :: cleanup b params contID (Some err)
          | (out, None) =>
            EvSend {| Output := out; Error := None |}
              :: EvClose :: cleanup b params contID None
          end
        end
    end
  end.

(** The loop of [pullWithBackoff]; [i] counts the selections on the
    backoff controller, [fuel] bounds the iterations of the model. *)
Fixpoint pull_loop (fuel : nat) (b : Backend) (policy : backoff.Policy)
    (image : string) (i : nat) : option (option error * list event) :=
  match fuel with
  | O => None
  | S fuel' =>
    if backoff.Continue policy i then
      match Pull (cli b) i image with
      | None => Some (None, [EvPull Caller image])
      | Some _ =>
        match pull_loop fuel' b policy image (S i) with
        | None => None
        | Some (err, evs) =>
          Some (err, EvPull Caller image
                       :: EvErrorf ("Error pulling Docker image " +:+ image)
                       :: evs)
        end
      end
    else Some (Some (New "backoff retry exceeded pulling Docker image"), [])
  end.

(** [func (b Backend) pullWithBackoff(ctx, image) error] *)
Definition pullWithBackoff (fuel : nat) (b : Backend) (image : string)
    : option (option error * list event) :=
  let backoffPolicy :=
    NewExponential (BackoffInterval (config b)) (BackoffMaxRetries (config b)) in
  pull_loop fuel b backoffPolicy image 0.

(** The values sent on the result channel, in order. *)
Definition sent (evs : list event) : list RunResult :=
  omap (fun ev => match ev with EvSend r => Some r | _ => None end) evs.

(** The removals requested, in order: context, container and [Force]. *)
Definition removals (evs : list event) : list (ctx * string * bool) :=
  omap (fun ev => match ev with
                  | EvContainerRemove c id force => Some (c, id, force)
                  | _ => None
                  end) evs.

(** The stop requests, in order: context, container and timeout. *)
Definition stops (evs : list event) : list (ctx * string * Z) :=
  omap (fun ev => match ev with
                  | EvContainerStop c id timeout => Some (c, id, timeout)
                  | _ => None
                  end) evs.

(** The containers whose logs were requested, in order. *)
Definition collected (evs : list event) : list string :=
  omap (fun ev => match ev with
                  | EvContainerLogs _ id _ _ => Some id
                  | _ => None
                  end) evs.

(** The report of the routine: the events before the first send, the
    value sent, and the events after it. *)
Fixpoint report (evs : list event)
    : option (list event * RunResult * list event) :=
  match evs with
  | [] => None
  | EvSend r :: post => Some ([], r, post)
  | ev :: evs' =>
    match report evs' with
    | Some (pre, r, post) => Some (ev :: pre, r, post)
    | None => None
    end
  end.

(** What [Run] hands back and causes: the returned channel, described by
    the values the routine sends on it ([None] is the nil channel), the
    returned error, and the events of the pull followed by those of the
    routine started with [go]. *)
Record started : Type := {
  res : option (list RunResult);
  err : option error;
  events : list event
}.

(** [func (b *Backend) Run(ctx, params) (<-chan backend.RunResult, error)] *)
Definition Run (fuel : nat) (b : Backend) (params : RunParams)
    : option started :=
  let go pulled :=
    let routine := run b params in
    {| res := Some (sent routine); err := None; events := pulled ++ routine |} in
  if bool_decide (Server (config b) <> "") then
    match pullWithBackoff fuel b (Image params) with
    | None => None
    | Some (Some err, evs) => Some {| res := None; err := Some err; events := evs |}
    | Some (None, evs) => Some (go evs)
    end
  else Some (go []).

End Backend.

End docker.

(** ** Package [cmd]: the shutdown sequence of [MainWithExitCode] *)

Module cmd.

(** What the collaborators of [MainWithExitCode] answer in one execution
    of the agent. *)
Record world : Type := {
  Args : nat;                          (* len(os.Args) *)
  ReadConfig : option error;
  logNew : option error;
  bc : option error;                   (* the BackendCreator *)
  resultsNew : option error;
  NewWriter : option error;
  signalled : bool;                    (* the select took [<-sig] *)
  stopperFirst : option error;         (* else: the value it took from stopperDone *)
  stopperDone : option error;          (* second receive from stopperDone *)
  qrdone : option error;
  Shutdown : option error;
  httpDone : option error
}.

Inductive output : Type :=
| Stderr (msg : string)
| Errorf (msg : string)
| Infof (msg : string)
| cancelqr.

(** The part of [MainWithExitCode] that follows the [select]: the waits
    for the idle tracker, the queue reader, the listener and the serve
    routine. *)
Definition drain (w : world) : Z * list output :=
  let err := stopperDone w in
  let l1 := if bool_decide (err <> None) && negb (IsNil err context.Canceled)
            then [Errorf ("error stopping the reader tracker " +:+ show err)]
            else [] in
  let err := qrdone w in
  let l2 := if bool_decide (err <> None) && negb (IsNil err context.Canceled)
            then [Errorf ("error stopping agent " +:+ show err)]
            else [] in
  let err := Shutdown w in
  if bool_decide (err <> None) then
    (1, l1 ++ l2 ++ [Errorf ("error stoping http server: " +:+ show err)])
  else
    let err := httpDone w in
    if bool_decide (err <> None) && negb (IsNil err http.ErrServerClosed) then
      (1, l1 ++ l2 ++ [Errorf ("http server stopped with error: " +:+ show err)])
    else (0, l1 ++ l2).

(** [func MainWithExitCode(bc BackendCreator) int]: the exit code and what
    was written, logged and cancelled. *)
Definition MainWithExitCode (w : world) : Z * list output :=
  if (Args w <? 2)%nat then (1, [Stderr "Usage: vulcan-agent config_file"])
  else match ReadConfig w with
  | Some err => (1, [Stderr ("error reading configuration file: " +:+ Error err)])
  | None =>
  match logNew w with
  | Some err => (1, [Stderr ("error reading creating log: " +:+ Error err)])
  | None =>
  match bc w with
  | Some err => (1, [Errorf ("error creating the backend to run the checks " +:+ Error err)])
  | None =>
  match resultsNew w with
  | Some err => (1, [Errorf ("error creating results client " +:+ Error err)])
  | None =>
  match NewWriter w with
  | Some err => (1, [Errorf ("error creating sqs writer " +:+ Error err)])
  | None =>
    let running := [Infof "agent running"] in
    let selected :=
      if signalled w then [cancelqr]
      else [Infof "shutting down agent because of inactivity"; cancelqr] in
    let '(code, out) := drain w in
    (code, running ++ selected ++ out)
  end end end end end.

End cmd.

(** ** Sample collaborators, for the concrete runs of Part II *)

Module sample.

Import docker.

Definition names : VarNames :=
  {| CheckIDVar := "VULCAN_CHECK_ID";
     ChecktypeNameVar := "VULCAN_CHECKTYPE_NAME";
     ChecktypeVersionVar := "VULCAN_CHECKTYPE_VERSION";
     CheckTargetVar := "VULCAN_CHECK_TARGET";
     CheckAssetTypeVar := "VULCAN_CHECK_ASSET_TYPE";
     CheckOptionsVar := "VULCAN_CHECK_OPTIONS";
     AgentAddressVar := "VULCAN_AGENT_ADDRESS" |}.

(** A policy that grants the first attempt and [maxRetries] retries. *)
Definition NewExponential (interval maxRetries : Z) : backoff.Policy :=
  fun i => if (Z.of_nat i <=? maxRetries) then backoff.Next else backoff.Done.

Definition params : RunParams :=
  {| CheckID := "check-1"; CheckTypeName := "vulcan-tls"; ChecktypeVersion := "1";
     Image := "registry.example/vulcan-tls:1"; Target := "example.com";
     AssetType := "Hostname"; Options := "{}"; RequiredVars := ["TOKEN"] |}.

(** Standard output "ok", standard error "w". *)
Definition logs : stdcopy.stream :=
  {| stdcopy.frames :=
       [ {| stdcopy.tag := stdcopy.Stdout; stdcopy.payload := [Byte.x6f] |};
         {| stdcopy.tag := stdcopy.Stderr; stdcopy.payload := [Byte.x77] |};
         {| stdcopy.tag := stdcopy.Stdout; stdcopy.payload := [Byte.x6b] |} ];
     stdcopy.failure := None |}.

(** A client for which every call succeeds, except that [ContainerWait]
    answers [wait] and [Pull] answers [pull]. *)
Definition client (wait : option error) (pull : nat -> option error) : DockerClient :=
  {| Create := fun _ _ => ("c1", None);
     ContainerStop := fun _ => None;
     ContainerRemove := fun _ => None;
     ContainerStart := fun _ => None;
     ContainerWait := fun _ => (0, wait);
     ContainerLogs := fun _ => (logs, None);
     Pull := fun i _ => pull i |}.

Definition backend (server : string) (wait : option error)
    (pull : nat -> option error) : Backend :=
  {| config := {| Server := server; BackoffInterval := 1; BackoffMaxRetries := 2 |};
     agentAddr := "172.17.0.1:8080";
     checkVars := {[ "TOKEN" := "secret" ]};
     cli := client wait pull |}.

End sample.

(** ** Package [docker], continued: more projections of a trace *)

Module trace.

Import docker.

(** The images pulled, one entry per attempt. *)
Definition pulls (evs : list event) : list string :=
  omap (fun ev => match ev with EvPull _ image => Some image | _ => None end) evs.

(** The names of the containers whose creation was requested. *)
Definition creates (evs : list event) : list string :=
  omap (fun ev => match ev with EvCreate _ _ name => Some name | _ => None end) evs.

(** The containers whose start was requested. *)
Definition starts (evs : list event) : list string :=
  omap (fun ev => match ev with EvContainerStart _ id => Some id | _ => None end) evs.

(** The containers waited for. *)
Definition waits (evs : list event) : list string :=
  omap (fun ev => match ev with EvContainerWait _ id => Some id | _ => None end) evs.

(** The number of times the log reader was closed. *)
Definition closes (evs : list event) : nat :=
  length (omap (fun ev => match ev with EvClose => Some tt | _ => None end) evs).

(** The messages logged at error level. *)
Definition errorfs (evs : list event) : list string :=
  omap (fun ev => match ev with EvErrorf msg => Some msg | _ => None end) evs.

(** The events of [k] failed attempts to pull [image]. *)
Fixpoint failed_pulls (k : nat) (image : string) : list event :=
  match k with
  | O => []
  | S k' =>
    EvPull Caller image
      :: EvErrorf ("Error pulling Docker image " +:+ image)
      :: failed_pulls k' image
  end.

(** A backend whose client answers [removeErr] to [ContainerRemove] and is
    otherwise the client of [b]. *)
Definition with_remove (b : Backend) (removeErr : option error) : Backend :=
  {| config := config b; agentAddr := agentAddr b; checkVars := checkVars b;
     cli := {| Create := Create (cli b);
               ContainerStop := ContainerStop (cli b);
               ContainerRemove := fun _ => removeErr;
               ContainerStart := ContainerStart (cli b);
               ContainerWait := ContainerWait (cli b);
               ContainerLogs := ContainerLogs (cli b);
               Pull := Pull (cli b) |} |}.

End trace.

(** ** Package [docker], continued: [getAgentAddr] *)

Module agentaddr.

(** An IP address of package [net]: its bytes, 4 of them or 16. *)
Definition IP : Type := list byte.

(** [ip.To4()]: the four-byte form of an IPv4 address, given in four bytes
    or as an IPv4-mapped address of sixteen; [None] is the nil result. *)
Definition To4 (ip : IP) : option IP :=
  if (length ip =? 4)%nat then Some ip
  else if (length ip =? 16)%nat
          && forallb (fun x => Byte.eqb x Byte.x00) (take 10 ip)
          && Byte.eqb (nth 10 ip Byte.x00) Byte.xff
          && Byte.eqb (nth 11 ip Byte.x00) Byte.xff
       then Some (drop 12 ip)
       else None.

(** [net.TCPAddr]; a nil [IP] is the empty list. *)
Record TCPAddr : Type := {
  TCPIP : IP;
  Port : Z;
  Zone : string
}.

(** [net.Interface], as far as [getAgentAddr] looks at it: what
    [iface.Addrs()] returns, each address given by its [String()]. *)
Record Interface : Type := {
  Addrs : list string * option error
}.

Definition defaultDockerIfaceName : string := "docker0".

Section getAgentAddr.

(** [net.ResolveTCPAddr] for the network tcp, [net.InterfaceByName],
    [net.ParseCIDR] (its IP result and its error) and [TCPAddr.String]. *)
Variable ResolveTCPAddr : string -> TCPAddr * option error.
Variable InterfaceByName : string -> Interface * option error.
Variable ParseCIDR : string -> IP * option error.
Variable TCPAddr_String : TCPAddr -> string.

(** The [for] loop of [getAgentAddr] over the addresses left, and the
    [return] that follows it. *)
Fixpoint scan (connAddr : TCPAddr) (addrs : list string) : string * option error :=
  match addrs with
  | [] => (EmptyString, Some (New "failed to determine Docker agent IP address"))
  | addr :: addrs' =>
    let '(ip, err) := ParseCIDR addr in
    match err with
    | Some err => (EmptyString, Some err)
    | None =>
      if bool_decide (To4 ip <> None) then
        let connAddr := {| TCPIP := ip; Port := Port connAddr; Zone := Zone connAddr |} in
        (TCPAddr_String connAddr, None)
      else scan connAddr addrs'
    end
  end.

(** [func getAgentAddr(port, ifaceName string) (string, error)] *)
Definition getAgentAddr (port ifaceName : string) : string * option error :=
  let '(connAddr, err) := ResolveTCPAddr port in
  match err with
  | Some err => (EmptyString, Some err)
  | None =>
    let ifaceName :=
      if bool_decide (ifaceName = EmptyString) then defaultDockerIfaceName
      else ifaceName in
    let '(iface, err) := InterfaceByName ifaceName in
    match err with
    | Some err => (EmptyString, Some err)
    | None =>
      let '(addrs, err) := Addrs iface in
      match err with
      | Some err => (EmptyString, Some err)
      | None => scan connAddr addrs
      end
    end
  end.

End getAgentAddr.

End agentaddr.

(* ===================================================================== *)
(** * Part II: properties                                                 *)
(* ===================================================================== *)

(** ** Retry executor *)

Import retryer.

Section retryer_properties.

Context {St : Type}.
Implicit Types (b : Retryer) (exec : St -> option error * St) (st : St).

Lemma incr_no_wrap (c : Z) : -1 <= c < int.max -> int.incr c = c + 1.
Proof.
  unfold int.incr, int.wrap, int.max. intros Hc.
  rewrite Z.mod_small by lia. lia.
Qed.

Lemma state_at_succ exec k st :
  state_at exec (S k) st = state_at exec k (exec st).2.
Proof. reflexivity. Qed.

Lemma state_at_last exec k st :
  state_at exec (S k) st = (exec (state_at exec k st)).2.
Proof.
  revert st. induction k as [|k IH]; intros st; [reflexivity|].
  rewrite state_at_succ, IH. reflexivity.
Qed.

(** [m] failed attempts with a transient error, below the ceiling and with
    the backoff controller granting each retry, are [m] turns of the loop. *)
Lemma loop_retry b op exec (m : nat) :
  forall (fuel : nat) (c : Z) (waits : nat) st (n : nat) (log : list entry),
    -1 <= c ->
    c + Z.of_nat m < retries b ->
    retries b <= int.max ->
    (forall j, (j < m)%nat ->
       exists e, error_at exec j st = Some e /\ Is e ErrPermanent = false) ->
    (forall j, (j < m)%nat -> policy b (waits + j)%nat = backoff.Next) ->
    loop (m + fuel) b op exec c waits st n log =
    loop fuel b op exec (c + Z.of_nat m) (waits + m)%nat
         (state_at exec m st) (n + m)%nat (log ++ retry_log op exec c m st).
Proof.
  induction m as [|m IH]; intros fuel c waits st n log Hc Hlt Hmax Hfail Hpol.
  - simpl. rewrite Z.add_0_r, !Nat.add_0_r, app_nil_r. reflexivity.
  - destruct (Hfail 0%nat) as (e & He & Hperm); [lia|].
    unfold error_at in He. simpl in He.
    assert (Hincr : int.incr c = c + 1) by (apply incr_no_wrap; lia).
    assert (Hp0 : policy b waits = backoff.Next).
    { specialize (Hpol 0%nat). rewrite Nat.add_0_r in Hpol. apply Hpol. lia. }
    cbn [Nat.add loop retry_log state_at].
    destruct (exec st) as [err st'] eqn:Hex. simpl in He. subst err. simpl.
    rewrite Hperm, Hincr.
    replace (c + 1 =? retries b) with false by (symmetry; apply Z.eqb_neq; lia).
    rewrite Hp0.
    rewrite (IH fuel (c + 1) (S waits) st' (S n)).
    + rewrite <- app_assoc. simpl. f_equal; lia.
    + lia.
    + lia.
    + exact Hmax.
    + intros j Hj. specialize (Hfail (S j)). unfold error_at in *.
      rewrite state_at_succ, Hex in Hfail. apply Hfail. lia.
    + intros j Hj. replace (S waits + j)%nat with (waits + S j)%nat by lia.
      apply Hpol. lia.
Qed.

(** A failure with the counter reaching the ceiling ends the loop. *)
Lemma loop_ceiling b op exec fuel waits st n log e st' :
  0 <= retries b <= int.max ->
  exec st = (Some e, st') ->
  Is e ErrPermanent = false ->
  loop (S fuel) b op exec (retries b - 1) waits st n log =
  Some {| ret := Some e; final := st'; calls := S n;
          logged := log ++ [LogFinished (retries b) op e] |}.
Proof.
  intros HN Hex Hperm. cbn [loop]. rewrite Hex, Hperm.
  rewrite incr_no_wrap by lia.
  replace (retries b - 1 + 1) with (retries b) by lia.
  rewrite Z.eqb_refl. reflexivity.
Qed.

(** A failure that matches the permanent sentinel ends the loop, whatever
    the counter. *)
Lemma loop_permanent b op exec fuel c waits st n log e st' :
  exec st = (Some e, st') ->
  Is e ErrPermanent = true ->
  loop (S fuel) b op exec c waits st n log =
  Some {| ret := Some e; final := st'; calls := S n;
          logged := log ++ [LogPermanent op e] |}.
Proof. intros Hex Hperm. cbn [loop]. rewrite Hex, Hperm. reflexivity. Qed.

(** Whatever the operation and the backoff controller do, the loop ends
    within the invocations that the ceiling leaves. *)
Lemma loop_total b op exec (m : nat) :
  forall (c : Z) (waits : nat) st (n : nat) (log : list entry),
    -1 <= c ->
    c + 1 + Z.of_nat m = retries b ->
    retries b <= int.max ->
    exists out,
      (forall fuel, (m < fuel)%nat ->
         loop fuel b op exec c waits st n log = Some out) /\
      (S n <= calls out <= n + m + 1)%nat.
Proof.
  induction m as [|m IH]; intros c waits st n log Hc HN Hmax.
  - destruct (exec st) as [[e|] st'] eqn:Hex.
    + destruct (Is e ErrPermanent) eqn:Hperm.
      * eexists. split.
        -- intros [|fuel] Hfuel; [lia|]. eapply loop_permanent; eauto.
        -- simpl. lia.
      * eexists. split.
        -- intros [|fuel] Hfuel; [lia|]. cbn [loop]. rewrite Hex, Hperm.
           rewrite incr_no_wrap by lia.
           replace (c + 1 =? retries b) with true
             by (symmetry; apply Z.eqb_eq; lia).
           reflexivity.
        -- simpl. lia.
    + eexists. split.
      * intros [|fuel] Hfuel; [lia|]. cbn [loop]. rewrite Hex. reflexivity.
      * simpl. lia.
  - destruct (exec st) as [[e|] st'] eqn:Hex.
    + destruct (Is e ErrPermanent) eqn:Hperm.
      * eexists. split.
        -- intros [|fuel] Hfuel; [lia|]. eapply loop_permanent; eauto.
        -- simpl. lia.
      * destruct (policy b waits) eqn:Hpol.
        -- destruct (IH (c + 1) (S waits) st' (S n)
                        (log ++ [LogRetrying (c + 1) op e]))
             as (out & Hout & Hcalls); [lia|lia|exact Hmax|].
           exists out. split; [|lia].
           intros [|fuel] Hfuel; [lia|]. cbn [loop]. rewrite Hex, Hperm.
           rewrite incr_no_wrap by lia.
           replace (c + 1 =? retries b) with false
             by (symmetry; apply Z.eqb_neq; lia).
           rewrite Hpol. apply Hout. lia.
        -- eexists. split.
           ++ intros [|fuel] Hfuel; [lia|]. cbn [loop]. rewrite Hex, Hperm.
              rewrite incr_no_wrap by lia.
              replace (c + 1 =? retries b) with false
                by (symmetry; apply Z.eqb_neq; lia).
              rewrite Hpol. reflexivity.
           ++ simpl. lia.
    + eexists. split.
      * intros [|fuel] Hfuel; [lia|]. cbn [loop]. rewrite Hex. reflexivity.
      * simpl. lia.
Qed.

(** With a ceiling [N] that is a non-negative [int], [WithRetries] returns
    after at least one and at most [N + 1] invocations, for every operation
    and every backoff controller. *)
Lemma WithRetries_at_most b op exec st :
  0 <= retries b <= int.max ->
  exists out,
    (forall fuel, (Z.to_nat (retries b) < fuel)%nat ->
       WithRetries fuel b op exec st = Some out) /\
    (1 <= calls out <= Z.to_nat (retries b) + 1)%nat.
Proof.
  intros HN. unfold WithRetries.
  destruct (loop_total b op exec (Z.to_nat (retries b)) (-1) 0%nat st 0%nat [])
    as (out & Hout & Hcalls); [lia|lia|lia|].
  exists out. split; [exact Hout|lia].
Qed.

(** C2, amended. An operation that fails with a non-permanent error on
    every attempt, run with retry ceiling [N] (a non-negative [int]) while
    the backoff controller grants each of the [N] retries, is invoked
    exactly [N + 1] times, and [WithRetries] returns the error observed on
    the last invocation. *)
Theorem WithRetries_exhausts_ceiling b op exec st :
  0 <= retries b <= int.max ->
  (forall k, exists e, error_at exec k st = Some e /\ Is e ErrPermanent = false) ->
  (forall i, (i < Z.to_nat (retries b))%nat -> policy b i = backoff.Next) ->
  exists out,
    (forall fuel, (Z.to_nat (retries b) + 1 <= fuel)%nat ->
       WithRetries fuel b op exec st = Some out) /\
    calls out = (Z.to_nat (retries b) + 1)%nat /\
    ret out = error_at exec (Z.to_nat (retries b)) st /\
    ret out <> None /\
    final out = state_at exec (Z.to_nat (retries b) + 1) st.
Proof.
  intros HN Hfail Hpol.
  set (N := Z.to_nat (retries b)) in *.
  assert (HNz : Z.of_nat N = retries b) by (subst N; lia).
  destruct (Hfail N) as (e & He & Hperm).
  unfold error_at in *.
  destruct (exec (state_at exec N st)) as [err st'] eqn:Hex.
  simpl in He. subst err.
  exists {| ret := Some e; final := st'; calls := S N;
            logged := retry_log op exec (-1) N st
                      ++ [LogFinished (retries b) op e] |}.
  split; [|split; [|split; [|split]]].
  - intros fuel Hfuel. unfold WithRetries.
    replace fuel with (N + S (fuel - N - 1))%nat by lia.
    rewrite loop_retry; [|lia|lia|lia| |].
    + replace (-1 + Z.of_nat N) with (retries b - 1) by lia.
      simpl Nat.add. simpl app.
      erewrite loop_ceiling; eauto.
    + intros j _. apply Hfail.
    + intros j Hj. apply Hpol. exact Hj.
  - simpl. lia.
  - reflexivity.
  - discriminate.
  - simpl. replace (N + 1)%nat with (S N) by lia.
    rewrite state_at_last, Hex. reflexivity.
Qed.

(** C3, amended. When the first error that wraps the permanent sentinel occurs on
    invocation [k] (counted from 1) with [k] at most the ceiling, the
    earlier invocations failing with non-permanent errors and the backoff
    controller granting their retries, the operation is invoked exactly [k]
    times and the returned error matches the sentinel, whatever budget is
    left. *)
Theorem WithRetries_permanent_short_circuit b op exec st (k : nat) :
  (1 <= k)%nat ->
  Z.of_nat k <= retries b <= int.max ->
  (forall j, (j < k - 1)%nat ->
     exists e, error_at exec j st = Some e /\ Is e ErrPermanent = false) ->
  (exists e, error_at exec (k - 1) st = Some e /\ Is e ErrPermanent = true) ->
  (forall i, (i < k - 1)%nat -> policy b i = backoff.Next) ->
  exists out e,
    (forall fuel, (k <= fuel)%nat -> WithRetries fuel b op exec st = Some out) /\
    calls out = k /\
    ret out = Some e /\
    ret out = error_at exec (k - 1) st /\
    Is e ErrPermanent = true.
Proof.
  intros Hk HN Hfail (e & He & Hperm) Hpol.
  unfold error_at in He.
  destruct (exec (state_at exec (k - 1) st)) as [err st'] eqn:Hex.
  simpl in He. subst err.
  exists {| ret := Some e; final := st'; calls := S (k - 1);
            logged := retry_log op exec (-1) (k - 1) st
                      ++ [LogPermanent op e] |}, e.
  split; [|split; [|split; [|split]]].
  - intros fuel Hfuel. unfold WithRetries.
    replace fuel with ((k - 1) + S (fuel - k))%nat by lia.
    rewrite loop_retry; [|lia|lia|lia|exact Hfail|exact Hpol].
    simpl Nat.add. simpl app.
    erewrite loop_permanent; eauto.
  - simpl. lia.
  - reflexivity.
  - unfold error_at. rewrite Hex. reflexivity.
  - exact Hperm.
Qed.

End retryer_properties.

(** C2, as stated, fails when the backoff controller is done before the
    ceiling is reached: with ceiling 5, an operation that always fails with
    a plain error and a controller that is done at its first selection,
    the operation is invoked once, not six times. *)
Lemma WithRetries_done_before_ceiling :
  let b := {| policy := fun _ => backoff.Done; retries := 5 |} in
  let exec := fun n : nat => (Some (errors.New "test"), S n) in
  (forall k, exists e, error_at exec k 0%nat = Some e /\
                       Is e ErrPermanent = false) /\
  exists out : outcome nat,
    (forall fuel, (1 <= fuel)%nat ->
       WithRetries fuel b "op" exec 0%nat = Some out) /\
    calls out = 1%nat /\
    calls out <> (Z.to_nat (retries b) + 1)%nat.
Proof.
  intros b exec. split.
  - intros k. exists (errors.New "test"). split; reflexivity.
  - eexists. split; [|split].
    + intros [|fuel] Hfuel; [lia|]. reflexivity.
    + reflexivity.
    + simpl. discriminate.
Qed.

(** C3, as stated, fails when the backoff controller is done before the
    invocation on which the permanent error is due: with ceiling 2, a plain
    failure on the first invocation, a wrapped permanent error due on the
    second and a controller that is done at its first selection, the
    operation is invoked once and the returned error does not match the
    permanent sentinel. *)
Lemma WithRetries_done_before_permanent :
  let b := {| policy := fun _ => backoff.Done; retries := 2 |} in
  let exec := fun n : nat =>
    (if (S n =? 2)%nat
     then Some (Errorf_w "a permanent error " ErrPermanent)
     else Some (errors.New "test"), S n) in
  (exists e, error_at exec 0%nat 0%nat = Some e /\ Is e ErrPermanent = false) /\
  (exists e, error_at exec 1%nat 0%nat = Some e /\ Is e ErrPermanent = true) /\
  exists out : outcome nat,
    (forall fuel, (1 <= fuel)%nat ->
       WithRetries fuel b "op" exec 0%nat = Some out) /\
    calls out = 1%nat /\
    calls out <> 2%nat /\
    exists e, ret out = Some e /\ Is e ErrPermanent = false.
Proof.
  intros b exec. split; [|split].
  - exists (errors.New "test"). split; reflexivity.
  - exists (Errorf_w "a permanent error " ErrPermanent). split; reflexivity.
  - eexists. split; [|split; [|split]].
    + intros [|fuel] Hfuel; [lia|]. reflexivity.
    + reflexivity.
    + simpl. discriminate.
    + exists (errors.New "test"). split; reflexivity.
Qed.

(** The statement above at a concrete run: ceiling 2, an operation that
    counts its invocations and always fails with the same plain error. *)
Lemma WithRetries_exhausts_ceiling_witness :
  exists out : outcome nat,
    (forall fuel, (3 <= fuel)%nat ->
       WithRetries fuel {| policy := fun _ => backoff.Next; retries := 2 |}
         "op" (fun n : nat => (Some (New "test"), S n)) 0%nat = Some out) /\
    calls out = 3%nat /\ ret out = Some (New "test") /\ final out = 3%nat.
Proof.
  destruct (WithRetries_exhausts_ceiling (St := nat)
              {| policy := fun _ => backoff.Next; retries := 2 |}
              "op" (fun n : nat => (Some (New "test"), S n)) 0%nat)
    as (out & Hrun & Hcalls & Hret & _ & Hfinal).
  - simpl. unfold int.max. lia.
  - intros k. exists (New "test"). split; reflexivity.
  - reflexivity.
  - exists out. split; [|split; [|split]].
    + exact Hrun.
    + exact Hcalls.
    + exact Hret.
    + exact Hfinal.
Defined.

(** The statement above on the run of the test suite: ceiling 2, a plain
    failure on the first invocation and a wrapped permanent error on the
    second. *)
Lemma WithRetries_permanent_short_circuit_witness :
  exists (out : outcome nat) e,
    (forall fuel, (2 <= fuel)%nat ->
       WithRetries fuel {| policy := fun _ => backoff.Next; retries := 2 |}
         "op"
         (fun n : nat =>
            (if (S n =? 2)%nat
             then Some (Errorf_w "a permanent error " ErrPermanent)
             else Some (New "test"), S n)) 0%nat = Some out) /\
    calls out = 2%nat /\ ret out = Some e /\ Is e ErrPermanent = true.
Proof.
  destruct (WithRetries_permanent_short_circuit (St := nat)
              {| policy := fun _ => backoff.Next; retries := 2 |}
              "op"
              (fun n : nat =>
                 (if (S n =? 2)%nat
                  then Some (Errorf_w "a permanent error " ErrPermanent)
                  else Some (New "test"), S n)) 0%nat 2)
    as (out & e & Hrun & Hcalls & Hret & _ & Hperm).
  - lia.
  - simpl. unfold int.max. lia.
  - intros j Hj. assert (j = 0%nat) as -> by lia.
    exists (New "test"). split; reflexivity.
  - exists (Errorf_w "a permanent error " ErrPermanent). split; reflexivity.
  - reflexivity.
  - exists out, e. split; [|split; [|split]].
    + exact Hrun.
    + exact Hcalls.
    + exact Hret.
    + exact Hperm.
Defined.


(** ** Aborted-checks cache *)

Import aborted.

Lemma elem_of_fill_from (l : list string) (acc : gset string) (x : string) :
  x ∈ foldl (fun m id => m ∪ {[ id ]}) acc l <-> x ∈ acc \/ x ∈ l.
Proof.
  revert acc. induction l as [|y l IH]; intros acc; simpl.
  - rewrite elem_of_nil. tauto.
  - rewrite IH, elem_of_union, elem_of_singleton, elem_of_cons. tauto.
Qed.

(** The map built by the loop of [IsAborted] holds exactly the fetched
    identifiers. *)
Lemma elem_of_fill (l : list string) (x : string) : x ∈ fill l <-> x ∈ l.
Proof. unfold fill. rewrite elem_of_fill_from, elem_of_empty. tauto. Qed.

Lemma fill_list_to_set (l : list string) : fill l = list_to_set l.
Proof.
  apply set_eq. intros x. rewrite elem_of_fill, elem_of_list_to_set. tauto.
Qed.

Lemma bool_decide_fill (l : list string) (x : string) :
  bool_decide (x ∈ fill l) = bool_decide (x ∈ l).
Proof. apply bool_decide_ext, elem_of_fill. Qed.

(** [get] never reports an error, whatever [WithRetries] returned. *)
Lemma get_error_nil fuel c n l e n' :
  get fuel c n = Some (l, e, n') -> e = None.
Proof.
  unfold get. destruct (retryer.WithRetries _ _ _ _ _); intros H; congruence.
Qed.

(** [IsAborted] never reports an error either. *)
Lemma IsAborted_error_nil fuel c n ID found e c' n' :
  IsAborted fuel c n ID = Some ((found, e), c', n') -> e = None.
Proof.
  unfold IsAborted. case_bool_decide; [congruence|].
  destruct (get fuel c n) as [[[l e'] n'']|] eqn:Hget; [|discriminate].
  apply get_error_nil in Hget. subst e'. congruence.
Qed.

(** [IsAborted] on a hit: the fast path. *)
Lemma IsAborted_hit fuel c n ID :
  ID ∈ canceled c -> IsAborted fuel c n ID = Some ((true, None), c, n).
Proof. intros H. unfold IsAborted. rewrite bool_decide_eq_true_2; done. Qed.

(** [IsAborted] on a miss, in terms of the run of [WithRetries] in [get]:
    the identifiers left in [ids] replace the cached set and the error of
    the run is not looked at. *)
Lemma IsAborted_miss fuel c n ID out :
  ID ∉ canceled c ->
  retryer.WithRetries fuel (retryer c) "GetAbortedChecks" fetch
    {| ids := []; net := n |} = Some out ->
  IsAborted fuel c n ID =
  Some ((bool_decide (ID ∈ fill (ids (final out))), None),
        {| canceled := fill (ids (final out)); retryer := retryer c |},
        net (final out)).
Proof.
  intros Hmiss Hrun. unfold IsAborted, get.
  rewrite bool_decide_eq_false_2 by done. rewrite Hrun. reflexivity.
Qed.

(** A refresh whose first request is answered ends after that request when
    the answer is not a transport error. *)
Lemma WithRetries_fetch_answered fuel r n code body :
  answers n (requests n) = Response code body ->
  exists out,
    retryer.WithRetries (S fuel) r "GetAbortedChecks" fetch
      {| ids := []; net := n |} = Some out /\
    final out = (fetch {| ids := []; net := n |}).2 /\
    calls out = 1%nat.
Proof.
  intros Hans. unfold WithRetries. cbn [loop].
  destruct (fetch {| ids := []; net := n |}) as [err st'] eqn:Hf.
  destruct err as [e|].
  - assert (Hperm : Is e ErrPermanent = true).
    { unfold fetch in Hf. simpl in Hf. rewrite Hans in Hf.
      destruct (negb (code =? http.StatusOK)).
      - inversion Hf; subst. reflexivity.
      - destruct (json.Decode body [""]) as [ids' [derr|]]; inversion Hf; subst.
        reflexivity. }
    rewrite Hperm. eexists. split; [reflexivity|]. split; reflexivity.
  - eexists. split; [reflexivity|]. split; reflexivity.
Qed.

Lemma store_elems_strings (l : list string) (dst : list string) saved :
  json.store_elems (json.JString <$> l) dst saved = (l, saved).
Proof.
  revert dst saved. induction l as [|s l IH]; intros dst saved; simpl.
  - reflexivity.
  - rewrite IH. destruct saved; reflexivity.
Qed.

(** A JSON array of strings decodes to these strings. *)
Lemma Decode_strings (l : list string) (dst : list string) :
  json.Decode (json.Document (json.JArray (json.JString <$> l))) dst = (l, None).
Proof. simpl. apply store_elems_strings. Qed.

Lemma store_elems_saved elems dst e :
  (json.store_elems elems dst (Some e)).2 = Some e.
Proof.
  revert dst. induction elems as [|v elems IH]; intros dst; simpl.
  - reflexivity.
  - destruct (json.store_elem v (hd "" dst)) as [s err].
    specialize (IH (tl dst)).
    destruct (json.store_elems elems (tl dst) (Some e)) as [rest saved].
    simpl in *. exact IH.
Qed.



(** What one refresh answered with status 200 does, whether the body
    decodes or not: one request, and the slice left by the decoder becomes
    the cached set. *)
Lemma IsAborted_refresh_200 fuel c n ID body :
  ID ∉ canceled c ->
  answers n (requests n) = Response 200 body ->
  IsAborted (S fuel) c n ID =
  Some ((bool_decide (ID ∈ fill (json.Decode body [""]).1), None),
        {| canceled := fill (json.Decode body [""]).1; retryer := retryer c |},
        {| answers := answers n; requests := S (requests n) |}).
Proof.
  intros Hmiss Hans.
  destruct (WithRetries_fetch_answered fuel (retryer c) n 200 body Hans)
    as (out & Hrun & Hfinal & _).
  rewrite (IsAborted_miss _ _ _ _ out Hmiss Hrun), Hfinal.
  unfold fetch. simpl. rewrite Hans. simpl.
  destruct (json.Decode body [""]) as [ids' [e|]]; reflexivity.
Qed.

(** C1, on the code.  With the identifier a cached and the endpoint
    unreachable on every attempt, a lookup of b (a miss) returns false with
    a nil error after the three attempts that ceiling 2 allows, and leaves
    an empty cache behind; the following lookup of a misses, fetches again
    and returns false. *)
Theorem IsAborted_failed_fetch_empties_cache :
  let r := {| policy := fun _ => backoff.Next; retries := 2 |} in
  let c := {| canceled := {[ "a" ]}; retryer := r |} in
  let down := fun _ : nat => GetError (errors.New "connection refused") in
  IsAborted 3 c {| answers := down; requests := 0 |} "a"
    = Some ((true, None), c, {| answers := down; requests := 0 |}) /\
  IsAborted 3 c {| answers := down; requests := 0 |} "b"
    = Some ((false, None), {| canceled := ∅; retryer := r |},
            {| answers := down; requests := 3 |}) /\
  IsAborted 3 {| canceled := ∅; retryer := r |}
            {| answers := down; requests := 3 |} "a"
    = Some ((false, None), {| canceled := ∅; retryer := r |},
            {| answers := down; requests := 6 |}).
Proof. vm_compute. repeat split; reflexivity. Qed.

(** C8. Once a refresh has installed a snapshot that contains [X] (a miss
    answered with status 200 and a JSON array of strings with [X] among
    them), the cached set is that snapshot, and as long as the cached set
    is that snapshot every call of [IsAborted X] returns true and a nil
    error on the fast path: the receiver is unchanged and no request is
    sent. *)
Theorem IsAborted_cached_after_refresh fuel c n ID (l : list string) X :
  ID ∉ canceled c ->
  answers n (requests n) = Response 200 (json.Document (json.JArray (json.JString <$> l))) ->
  X ∈ l ->
  exists c',
    IsAborted (S fuel) c n ID =
      Some ((bool_decide (ID ∈ l), None), c',
            {| answers := answers n; requests := S (requests n) |}) /\
    canceled c' = list_to_set l /\
    forall fuel' c'' n'',
      canceled c'' = canceled c' ->
      IsAborted fuel' c'' n'' X = Some ((true, None), c'', n'').
Proof.
  intros Hmiss Hans HX.
  exists {| canceled := fill l; retryer := retryer c |}.
  split; [|split].
  - rewrite (IsAborted_refresh_200 fuel c n ID _ Hmiss Hans).
    rewrite Decode_strings. simpl.
    rewrite bool_decide_fill. reflexivity.
  - apply fill_list_to_set.
  - intros fuel' c'' n'' Hsame. apply IsAborted_hit.
    rewrite Hsame. simpl. apply elem_of_fill, HX.
Qed.

(** The statement above at a concrete refresh: an empty cache, a lookup of
    b answered with the array of a and x, then lookups of x. *)
Lemma IsAborted_cached_after_refresh_witness :
  let r := {| policy := fun _ => backoff.Next; retries := 2 |} in
  let n := {| answers := fun _ =>
                Response 200 (json.Document (json.JArray (json.JString <$> ["a"; "x"])));
              requests := 0 |} in
  exists c',
    IsAborted 1 (New r) n "b" =
      Some ((false, None), c', {| answers := answers n; requests := 1 |}) /\
    canceled c' = list_to_set ["a"; "x"] /\
    forall fuel' c'' n'',
      canceled c'' = canceled c' ->
      IsAborted fuel' c'' n'' "x" = Some ((true, None), c'', n'').
Proof.
  intros r n.
  apply (IsAborted_cached_after_refresh 0 (New r) n "b" ["a"; "x"] "x").
  - apply not_elem_of_empty.
  - reflexivity.
  - apply list_elem_of_further, list_elem_of_here.
Defined.




(** ** Execution backend *)

Import docker.

Lemma sent_cleanup b params contID e : sent (cleanup b params contID e) = [].
Proof. unfold cleanup. destruct (ContainerRemove _ _); reflexivity. Qed.

Lemma removals_cleanup b params contID e :
  removals (cleanup b params contID e) = [(Background, contID, true)].
Proof. unfold cleanup. destruct (ContainerRemove _ _); reflexivity. Qed.

Lemma stops_cleanup b params contID e : stops (cleanup b params contID e) = [].
Proof. unfold cleanup. destruct (ContainerRemove _ _); reflexivity. Qed.

Lemma collected_cleanup b params contID e :
  collected (cleanup b params contID e) = [].
Proof. unfold cleanup. destruct (ContainerRemove _ _); reflexivity. Qed.

Lemma sent_app evs evs' : sent (evs ++ evs') = sent evs ++ sent evs'.
Proof. unfold sent. apply omap_app. Qed.

Lemma removals_app evs evs' :
  removals (evs ++ evs') = removals evs ++ removals evs'.
Proof. unfold removals. apply omap_app. Qed.

(** Case analysis on the branches of [run], with the deferred calls
    reduced by the lemmas above. *)
Ltac run_cases :=
  unfold run;
  repeat match goal with
         | |- context [let '(_, _) := ?x in _] => destruct x as [? ?] eqn:?
         | |- context [match ?x with Some _ => _ | None => _ end] =>
           destruct x eqn:?
         | |- context [match ?x with (_, _) => _ end] => destruct x as [? ?] eqn:?
         | |- context [if ?x then _ else _] => destruct x eqn:?
         end;
  cbn [sent removals stops collected omap list_omap];
  rewrite ?sent_cleanup, ?removals_cleanup, ?stops_cleanup, ?collected_cleanup.

Section backend_properties.

Variable names : VarNames.
Variable NewExponential : Z -> Z -> backoff.Policy.

(** The routine sends exactly one value, with the output or the error. *)
Lemma run_sends_once b params :
  exists r, sent (run names b params) = [r] /\
            (Error r = None \/ Output r = []).
Proof.
  run_cases; eexists; (split; [reflexivity|]); simpl; auto.
Qed.

(** The pull loop ends as soon as the backoff controller is done or an
    attempt succeeds, and sends nothing. *)
Lemma pull_loop_ends b policy image (k : nat) :
  forall j,
    backoff.Continue policy (j + k) = false \/ Pull (cli b) (j + k)%nat image = None ->
    exists r, (forall fuel, (S k <= fuel)%nat ->
                 pull_loop fuel b policy image j = Some r) /\
              sent r.2 = [] /\ removals r.2 = [].
Proof.
  induction k as [|k IH]; intros j Hend.
  - rewrite Nat.add_0_r in Hend.
    destruct (backoff.Continue policy j) eqn:Hc.
    + destruct Hend as [Hend|Hend]; [discriminate|].
      eexists. split; [|split].
      * intros [|fuel] Hfuel; [lia|]. simpl. rewrite Hc, Hend. reflexivity.
      * reflexivity.
      * reflexivity.
    + eexists. split; [|split].
      * intros [|fuel] Hfuel; [lia|]. simpl. rewrite Hc. reflexivity.
      * reflexivity.
      * reflexivity.
  - destruct (backoff.Continue policy j) eqn:Hc.
    + destruct (Pull (cli b) j image) as [e|] eqn:Hp.
      * destruct (IH (S j)) as (r & Hr & Hsent & Hrem).
        { replace (S j + k)%nat with (j + S k)%nat by lia. exact Hend. }
        exists (r.1, EvPull Caller image
                       :: EvErrorf ("Error pulling Docker image " +:+ image)
                       :: r.2).
        split; [|split].
        -- intros [|fuel] Hfuel; [lia|]. simpl. rewrite Hc, Hp.
           rewrite (Hr fuel) by lia. destruct r; reflexivity.
        -- simpl. exact Hsent.
        -- simpl. exact Hrem.
      * eexists. split; [|split].
        -- intros [|fuel] Hfuel; [lia|]. simpl. rewrite Hc, Hp. reflexivity.
        -- reflexivity.
        -- reflexivity.
    + eexists. split; [|split].
      * intros [|fuel] Hfuel; [lia|]. simpl. rewrite Hc. reflexivity.
      * reflexivity.
      * reflexivity.
Qed.



(** C5, amended.  In every run in which the container was created,
    whichever later step ends it, the run first sends its result and then,
    when the routine returns, requests the forced removal of that
    container with a background context: no removal comes before the
    result, and exactly one comes after it. *)
Theorem run_releases_after_report b params contID :
  Create (cli b) (getRunConfig names b params) (CheckID params) = (contID, None) ->
  exists pre r post,
    report (run names b params) = Some (pre, r, post) /\
    run names b params = pre ++ EvSend r :: post /\
    removals pre = [] /\
    removals post = [(Background, contID, true)] /\
    sent post = [].
Proof.
  intros Hcreate. unfold run. rewrite Hcreate.
  repeat match goal with
         | |- context [match ?x with Some _ => _ | None => _ end] =>
           destruct x eqn:?
         | |- context [match ?x with (_, _) => _ end] => destruct x as [? ?] eqn:?
         | |- context [if ?x then _ else _] => destruct x eqn:?
         end;
    cbn [report]; eexists _, _, _;
    (split; [reflexivity|]); (split; [reflexivity|]);
    cbn [sent removals omap list_omap];
    rewrite ?sent_cleanup, ?removals_cleanup; auto.
Qed.


(** C7. When the wait for the container returns the cancellation or the
    deadline error of the caller's context, the routine requests a stop
    with the five-second timeout and a background context, sends that
    error as the result, requests no logs, and the container is removed
    exactly once. *)
Theorem run_cancelled b params contID e :
  Create (cli b) (getRunConfig names b params) (CheckID params) = (contID, None) ->
  ContainerStart (cli b) contID = None ->
  (ContainerWait (cli b) contID).2 = Some e ->
  Is e context.Canceled = true \/ Is e context.DeadlineExceeded = true ->
  run names b params =
    EvCreate Caller (getRunConfig names b params) (CheckID params)
      :: EvContainerStart Caller contID
      :: EvContainerWait Caller contID
      :: EvContainerStop Background contID abortTimeout
      :: EvSend {| Output := []; Error := Some e |}
      :: cleanup b params contID (Some e) /\
  stops (run names b params) = [(Background, contID, 5000000000)] /\
  collected (run names b params) = [] /\
  sent (run names b params) = [{| Output := []; Error := Some e |}] /\
  removals (run names b params) = [(Background, contID, true)].
Proof.
  intros Hcreate Hstart Hwait Hctx.
  assert (Hrun : run names b params =
    EvCreate Caller (getRunConfig names b params) (CheckID params)
      :: EvContainerStart Caller contID
      :: EvContainerWait Caller contID
      :: EvContainerStop Background contID abortTimeout
      :: EvSend {| Output := []; Error := Some e |}
      :: cleanup b params contID (Some e)).
  { unfold run. rewrite Hcreate, Hstart, Hwait. cbn [IsNil].
    destruct Hctx as [Hc|Hd].
    - rewrite Hc. rewrite andb_false_r. reflexivity.
    - rewrite Hd. rewrite andb_false_r, orb_true_r. reflexivity. }
  rewrite Hrun. cbn [stops collected sent removals omap list_omap].
  rewrite stops_cleanup, collected_cleanup, sent_cleanup, removals_cleanup.
  repeat split; reflexivity.
Qed.

End backend_properties.

(** C4, as stated, fails at the image pull: with a registry configured and
    every pull refused, [Run] returns the nil channel and the error of the
    pull, after three attempts, and no value is sent on any channel. *)
Lemma Run_pull_failure_no_channel :
  let b := sample.backend "registry.example" None
             (fun _ => Some (errors.New "denied")) in
  exists st,
    (forall fuel, (4 <= fuel)%nat ->
       Run sample.names sample.NewExponential fuel b sample.params = Some st) /\
    res st = None /\
    err st = Some (errors.New "backoff retry exceeded pulling Docker image") /\
    sent (events st) = [] /\
    ~ (exists r, res st = Some [r]).
Proof.
  intros b. eexists. split; [|split; [|split; [|split]]].
  - intros fuel Hfuel.
    do 4 (destruct fuel as [|fuel]; [lia|]). vm_compute. reflexivity.
  - reflexivity.
  - reflexivity.
  - reflexivity.
  - simpl. intros [r Hr]. discriminate.
Qed.

(** C5, as stated, fails on the run of a check that succeeds: the removal
    of the container is not among the events that precede the result, it
    follows it. *)
Lemma run_reports_before_release :
  let b := sample.backend "" None (fun _ => None) in
  Create (cli b) (getRunConfig sample.names b sample.params)
         (CheckID sample.params) = ("c1", None) /\
  ~ (exists pre r post,
       report (run sample.names b sample.params) = Some (pre, r, post) /\
       removals pre <> []) /\
  exists pre r post,
    report (run sample.names b sample.params) = Some (pre, r, post) /\
    removals pre = [] /\
    removals post = [(Background, "c1", true)].
Proof.
  intros b. split; [reflexivity|]. split.
  - intros (pre & r & post & Hrep & Hrem). vm_compute in Hrep.
    inversion Hrep; subst. apply Hrem. reflexivity.
  - eexists _, _, _. split; [vm_compute; reflexivity|]. split; reflexivity.
Qed.

(** The amended C5 on a run whose start fails. *)
Lemma run_releases_after_report_witness :
  let b := {| config := config (sample.backend "" None (fun _ => None));
              agentAddr := "172.17.0.1:8080";
              checkVars := ∅;
              cli := {| Create := fun _ _ => ("c1", None);
                        ContainerStop := fun _ => None;
                        ContainerRemove := fun _ => Some (errors.New "gone");
                        ContainerStart := fun _ => Some (errors.New "no such image");
                        ContainerWait := fun _ => (0, None);
                        ContainerLogs := fun _ => (sample.logs, None);
                        Pull := fun _ _ => None |} |} in
  exists pre r post,
    report (run sample.names b sample.params) = Some (pre, r, post) /\
    run sample.names b sample.params = pre ++ EvSend r :: post /\
    removals pre = [] /\
    removals post = [(Background, "c1", true)] /\
    sent post = [].
Proof.
  intros b.
  apply (run_releases_after_report sample.names b sample.params "c1").
  reflexivity.
Defined.


(** C7 on the sample run with the context cancelled during the wait. *)
Lemma run_cancelled_witness :
  let b := sample.backend "" (Some context.Canceled) (fun _ => None) in
  stops (run sample.names b sample.params) = [(Background, "c1", 5000000000)] /\
  collected (run sample.names b sample.params) = [] /\
  sent (run sample.names b sample.params) =
    [{| Output := []; Error := Some context.Canceled |}] /\
  removals (run sample.names b sample.params) = [(Background, "c1", true)].
Proof.
  intros b.
  apply (run_cancelled sample.names b sample.params "c1" context.Canceled).
  - reflexivity.
  - reflexivity.
  - reflexivity.
  - left. reflexivity.
Defined.

(** ** Shutdown sequence *)

Import cmd.

(** The exit code of the drain sequence is 1 exactly when the listener
    could not be shut down or the serve routine ended with an error other
    than server-closed. *)
Lemma drain_code w :
  (drain w).1 =
  if bool_decide (Shutdown w <> None) then 1
  else if bool_decide (httpDone w <> None)
          && negb (IsNil (httpDone w) http.ErrServerClosed) then 1
  else 0.
Proof.
  unfold drain.
  destruct (bool_decide (Shutdown w <> None)); [reflexivity|].
  destruct (bool_decide (httpDone w <> None)
            && negb (IsNil (httpDone w) http.ErrServerClosed)); reflexivity.
Qed.

(** The errors of the idle tracker and of the queue reader, other than
    cancellation, are logged by the drain sequence. *)
Lemma drain_logs w e :
  Is e context.Canceled = false ->
  (stopperDone w = Some e ->
   Errorf ("error stopping the reader tracker " +:+ errors.Error e) ∈ (drain w).2) /\
  (qrdone w = Some e ->
   Errorf ("error stopping agent " +:+ errors.Error e) ∈ (drain w).2).
Proof.
  intros Hcancel. unfold drain. split; intros Hsome; rewrite Hsome; simpl;
    rewrite Hcancel; simpl;
    repeat match goal with
           | |- context [if ?x then _ else _] => destruct x
           end; simpl;
    rewrite ?elem_of_app, ?elem_of_cons; auto.
Qed.

(** Once the agent has started, [MainWithExitCode] returns the code of the
    drain sequence and logs what the drain sequence logs. *)
Lemma MainWithExitCode_started w :
  (2 <= Args w)%nat ->
  ReadConfig w = None -> logNew w = None -> bc w = None ->
  resultsNew w = None -> NewWriter w = None ->
  (MainWithExitCode w).1 = (drain w).1 /\
  forall o, o ∈ (drain w).2 -> o ∈ (MainWithExitCode w).2.
Proof.
  intros Hargs Hcfg Hlog Hbc Hres Hwr. unfold MainWithExitCode.
  replace (Args w <? 2)%nat with false by (symmetry; apply Nat.ltb_ge; lia).
  rewrite Hcfg, Hlog, Hbc, Hres, Hwr.
  destruct (drain w) as [code out]. simpl. split; [reflexivity|].
  intros o Ho. apply list_elem_of_further, elem_of_app. right. exact Ho.
Qed.

(** C9. Once the agent has started, the exit code is 1 exactly when the
    shutdown of the HTTP listener fails or the serve routine reports an
    error other than server-closed, and 0 otherwise; the errors received
    from the idle tracker and from the queue reader, other than context
    cancellation, are logged and have no part in the exit code. *)
Theorem MainWithExitCode_exit_code w :
  (2 <= Args w)%nat ->
  ReadConfig w = None -> logNew w = None -> bc w = None ->
  resultsNew w = None -> NewWriter w = None ->
  ((MainWithExitCode w).1 = 1 <->
     Shutdown w <> None \/
     exists e, httpDone w = Some e /\ Is e http.ErrServerClosed = false) /\
  ((MainWithExitCode w).1 = 0 <->
     Shutdown w = None /\
     (httpDone w = None \/
      exists e, httpDone w = Some e /\ Is e http.ErrServerClosed = true)) /\
  (forall e, stopperDone w = Some e -> Is e context.Canceled = false ->
     Errorf ("error stopping the reader tracker " +:+ errors.Error e)
       ∈ (MainWithExitCode w).2) /\
  (forall e, qrdone w = Some e -> Is e context.Canceled = false ->
     Errorf ("error stopping agent " +:+ errors.Error e) ∈ (MainWithExitCode w).2).
Proof.
  intros Hargs Hcfg Hlog Hbc Hres Hwr.
  destruct (MainWithExitCode_started w Hargs Hcfg Hlog Hbc Hres Hwr)
    as [Hcode Hout].
  rewrite Hcode, drain_code.
  split; [|split; [|split]].
  - destruct (Shutdown w) as [es|]; simpl.
    + split; [intros _; left; discriminate | reflexivity].
    + destruct (httpDone w) as [eh|]; simpl.
      * destruct (Is eh http.ErrServerClosed) eqn:Hclosed; simpl.
        -- split; [discriminate|]. intros [H|(e & He & Hne)]; [congruence|].
           inversion He; subst. congruence.
        -- split; [|reflexivity]. intros _. right. exists eh. auto.
      * split; [discriminate|]. intros [H|(e & He & _)]; congruence.
  - destruct (Shutdown w) as [es|]; simpl.
    + split; [discriminate|]. intros [H _]. discriminate.
    + destruct (httpDone w) as [eh|]; simpl.
      * destruct (Is eh http.ErrServerClosed) eqn:Hclosed; simpl.
        -- split; [|reflexivity]. intros _. split; [reflexivity|].
           right. exists eh. auto.
        -- split; [discriminate|].
           intros [_ [H|(e & He & Hc)]]; [discriminate|].
           inversion He; subst. congruence.
      * split; [|reflexivity]. intros _. auto.
  - intros e He Hcancel. apply Hout.
    destruct (drain_logs w e Hcancel) as [H _]. auto.
  - intros e He Hcancel. apply Hout.
    destruct (drain_logs w e Hcancel) as [_ H]. auto.
Qed.

(** C9 on an execution stopped by a signal in which the idle tracker and
    the queue reader both fail while the listener shuts down cleanly: the
    exit code is 0 and both failures are logged. *)
Lemma MainWithExitCode_exit_code_witness :
  let w := {| Args := 2; ReadConfig := None; logNew := None; bc := None;
              resultsNew := None; NewWriter := None;
              signalled := true; stopperFirst := None;
              stopperDone := Some (errors.New "tracker failed");
              qrdone := Some (errors.New "reader failed");
              Shutdown := None;
              httpDone := Some http.ErrServerClosed |} in
  (MainWithExitCode w).1 = 0 /\
  Errorf "error stopping the reader tracker tracker failed" ∈ (MainWithExitCode w).2 /\
  Errorf "error stopping agent reader failed" ∈ (MainWithExitCode w).2.
Proof.
  intros w.
  destruct (MainWithExitCode_exit_code w) as (_ & Hzero & Htracker & Hreader);
    try reflexivity.
  split; [|split].
  - apply Hzero. split; [reflexivity|]. right.
    exists http.ErrServerClosed. split; reflexivity.
  - apply (Htracker (errors.New "tracker failed")); reflexivity.
  - apply (Hreader (errors.New "reader failed")); reflexivity.
Defined.

(** ** Retry executor: further properties *)

Section retryer_outcomes.

Context {St : Type}.
Implicit Types (b : Retryer) (exec : St -> option error * St) (st : St).

(** [m] failed attempts with a transient error are [m] turns of the loop as
    long as the counter does not meet the ceiling and the backoff
    controller grants each retry; the ceiling may be negative. *)
Lemma loop_retry_ne b op exec (m : nat) :
  forall (fuel : nat) (c : Z) (waits : nat) st (n : nat) (log : list entry),
    -1 <= c ->
    c + Z.of_nat m <= int.max ->
    (forall j, 1 <= j <= Z.of_nat m -> c + j <> retries b) ->
    (forall j, (j < m)%nat ->
       exists e, error_at exec j st = Some e /\ Is e ErrPermanent = false) ->
    (forall j, (j < m)%nat -> policy b (waits + j)%nat = backoff.Next) ->
    loop (m + fuel) b op exec c waits st n log =
    loop fuel b op exec (c + Z.of_nat m) (waits + m)%nat
         (state_at exec m st) (n + m)%nat (log ++ retry_log op exec c m st).
Proof.
  induction m as [|m IH]; intros fuel c waits st n log Hc Hmax Hne Hfail Hpol.
  - simpl. rewrite Z.add_0_r, !Nat.add_0_r, app_nil_r. reflexivity.
  - destruct (Hfail 0%nat) as (e & He & Hperm); [lia|].
    unfold error_at in He. simpl in He.
    assert (Hincr : int.incr c = c + 1) by (apply incr_no_wrap; lia).
    assert (Hp0 : policy b waits = backoff.Next).
    { specialize (Hpol 0%nat). rewrite Nat.add_0_r in Hpol. apply Hpol. lia. }
    cbn [Nat.add loop retry_log state_at].
    destruct (exec st) as [err st'] eqn:Hex. simpl in He. subst err. simpl.
    rewrite Hperm, Hincr.
    replace (c + 1 =? retries b) with false
      by (symmetry; apply Z.eqb_neq; apply Hne; lia).
    rewrite Hp0.
    rewrite (IH fuel (c + 1) (S waits) st' (S n)).
    + rewrite <- app_assoc. simpl. f_equal; lia.
    + lia.
    + lia.
    + intros j Hj. replace (c + 1 + j) with (c + (j + 1)) by lia.
      apply Hne. lia.
    + intros j Hj. specialize (Hfail (S j)). unfold error_at in *.
      rewrite state_at_succ, Hex in Hfail. apply Hfail. lia.
    + intros j Hj. replace (S waits + j)%nat with (waits + S j)%nat by lia.
      apply Hpol. lia.
Qed.

(** What every result of the loop satisfies: the operation was invoked at
    least once more, the final state is the state after the last
    invocation, the returned value is what the last invocation returned,
    and each failed invocation left one log entry. *)
Lemma loop_result b op exec (fuel : nat) :
  forall (c : Z) (waits : nat) st (n : nat) (log : list entry) out,
    loop fuel b op exec c waits st n log = Some out ->
    (n < calls out)%nat /\
    final out = state_at exec (calls out - n) st /\
    ret out = error_at exec (calls out - n - 1) st /\
    length (logged out) =
      (length log + (calls out - n) - match ret out with Some _ => 0 | None => 1 end)%nat.
Proof.
  induction fuel as [|fuel IH]; intros c waits st n log out Hrun; [discriminate|].
  cbn [loop] in Hrun. unfold error_at.
  destruct (exec st) as [err st'] eqn:Hex.
  assert (Hone : (S n - n)%nat = 1%nat) by lia.
  destruct err as [e|].
  - destruct (Is e ErrPermanent).
    { inversion Hrun; subst; simpl. rewrite Hone. simpl.
      rewrite Hex, length_app. simpl. repeat split; lia. }
    destruct (int.incr c =? retries b).
    { inversion Hrun; subst; simpl. rewrite Hone. simpl.
      rewrite Hex, length_app. simpl. repeat split; lia. }
    destruct (policy b waits).
    + apply IH in Hrun. destruct Hrun as (Hn & Hfinal & Hret & Hlog).
      rewrite length_app in Hlog. simpl in Hlog.
      replace (calls out - n)%nat with (S (calls out - S n)) by lia.
      replace (S (calls out - S n) - 1)%nat with (S (calls out - S n - 1)) by lia.
      rewrite !state_at_succ, Hex. simpl.
      split; [lia|]. split; [exact Hfinal|]. split; [exact Hret|].
      destruct (ret out); lia.
    + inversion Hrun; subst; simpl. rewrite Hone. simpl.
      rewrite Hex, length_app. simpl. repeat split; lia.
  - inversion Hrun; subst; simpl. rewrite Hone. simpl.
    rewrite Hex. repeat split; lia.
Qed.

(** X1. With a ceiling [N] that is a non-negative [int], for every operation
    and every backoff controller, [WithRetries] returns after at least one
    and at most [N + 1] invocations; what it returns is what the last
    invocation returned, and the closure is left in the state after that
    invocation. *)
Theorem WithRetries_returns_last b op exec st :
  0 <= retries b <= int.max ->
  exists out,
    (forall fuel, (Z.to_nat (retries b) < fuel)%nat ->
       WithRetries fuel b op exec st = Some out) /\
    (1 <= calls out <= Z.to_nat (retries b) + 1)%nat /\
    ret out = error_at exec (calls out - 1) st /\
    final out = state_at exec (calls out) st.
Proof.
  intros HN. destruct (WithRetries_at_most b op exec st HN) as (out & Hout & Hcalls).
  exists out. split; [exact Hout|]. split; [exact Hcalls|].
  specialize (Hout (S (Z.to_nat (retries b))) (Nat.lt_succ_diag_r _)).
  unfold WithRetries in Hout. apply loop_result in Hout.
  destruct Hout as (_ & Hfinal & Hret & _).
  rewrite Nat.sub_0_r in *. split; assumption.
Qed.

(** X2. With such a ceiling, every failed invocation is logged once: the log
    has as many entries as there were invocations when an error is
    returned, and one less when the last invocation succeeded. *)
Theorem WithRetries_logs_each_failure b op exec st :
  0 <= retries b <= int.max ->
  exists out,
    (forall fuel, (Z.to_nat (retries b) < fuel)%nat ->
       WithRetries fuel b op exec st = Some out) /\
    length (logged out) = (calls out - match ret out with Some _ => 0 | None => 1 end)%nat.
Proof.
  intros HN. destruct (WithRetries_at_most b op exec st HN) as (out & Hout & Hcalls).
  exists out. split; [exact Hout|].
  specialize (Hout (S (Z.to_nat (retries b))) (Nat.lt_succ_diag_r _)).
  unfold WithRetries in Hout. apply loop_result in Hout.
  destruct Hout as (_ & _ & _ & Hlog). simpl in Hlog.
  rewrite Nat.sub_0_r in Hlog. exact Hlog.
Qed.

(** X3. An operation that succeeds on invocation [k] (counted from 1), with
    [k] at most the ceiling plus one, after non-permanent failures whose
    retries the backoff controller grants, is invoked exactly [k] times
    and [WithRetries] returns nil. *)
Theorem WithRetries_succeeds_at b op exec st (k : nat) :
  (1 <= k)%nat ->
  Z.of_nat k <= retries b + 1 ->
  retries b <= int.max ->
  (forall j, (j < k - 1)%nat ->
     exists e, error_at exec j st = Some e /\ Is e ErrPermanent = false) ->
  error_at exec (k - 1) st = None ->
  (forall i, (i < k - 1)%nat -> policy b i = backoff.Next) ->
  exists out,
    (forall fuel, (k <= fuel)%nat -> WithRetries fuel b op exec st = Some out) /\
    calls out = k /\
    ret out = None /\
    final out = state_at exec k st /\
    length (logged out) = (k - 1)%nat.
Proof.
  intros Hk HN Hmax Hfail Hok Hpol.
  unfold error_at in Hok.
  destruct (exec (state_at exec (k - 1) st)) as [err st'] eqn:Hex.
  simpl in Hok. subst err.
  assert (Hrun : forall fuel, (k <= fuel)%nat ->
    WithRetries fuel b op exec st =
    Some {| ret := None; final := st'; calls := S (k - 1);
            logged := retry_log op exec (-1) (k - 1) st |}).
  { intros fuel Hfuel. unfold WithRetries.
    replace fuel with ((k - 1) + S (fuel - k))%nat by lia.
    rewrite loop_retry; [|lia|lia|lia|exact Hfail|exact Hpol].
    simpl Nat.add. simpl app. cbn [loop]. rewrite Hex. reflexivity. }
  eexists. split; [exact Hrun|].
  split; [simpl; lia|]. split; [reflexivity|]. split.
  - simpl. replace k with (S (k - 1)) at 1 by lia.
    rewrite state_at_last, Hex. reflexivity.
  - specialize (Hrun k (le_n k)). unfold WithRetries in Hrun.
    apply loop_result in Hrun. destruct Hrun as (_ & _ & _ & Hlog).
    simpl in Hlog. simpl. lia.
Qed.

(** X4. When the backoff controller is done at its selection [i], before the
    ceiling is reached, an operation that keeps failing with non-permanent
    errors is invoked exactly [i + 1] times and [WithRetries] returns the
    error of the last invocation. *)
Theorem WithRetries_backoff_done b op exec st (i : nat) :
  Z.of_nat i < retries b <= int.max ->
  (forall j, (j <= i)%nat ->
     exists e, error_at exec j st = Some e /\ Is e ErrPermanent = false) ->
  (forall j, (j < i)%nat -> policy b j = backoff.Next) ->
  policy b i = backoff.Done ->
  exists out,
    (forall fuel, (i + 1 <= fuel)%nat -> WithRetries fuel b op exec st = Some out) /\
    calls out = (i + 1)%nat /\
    ret out = error_at exec i st /\
    ret out <> None.
Proof.
  intros HN Hfail Hpol Hdone.
  destruct (Hfail i (le_n i)) as (e & He & Hperm).
  unfold error_at in He.
  destruct (exec (state_at exec i st)) as [err st'] eqn:Hex.
  simpl in He. subst err.
  exists {| ret := Some e; final := st'; calls := S i;
            logged := retry_log op exec (-1) i st
                      ++ [LogFinished (Z.of_nat i) op e] |}.
  split; [|split; [|split]].
  - intros fuel Hfuel. unfold WithRetries.
    replace fuel with (i + S (fuel - i - 1))%nat by lia.
    rewrite loop_retry; [|lia|lia|lia| |exact Hpol].
    + simpl Nat.add. simpl app. cbn [loop]. rewrite Hex, Hperm.
      rewrite incr_no_wrap by lia.
      replace (-1 + Z.of_nat i + 1) with (Z.of_nat i) by lia.
      replace (Z.of_nat i =? retries b) with false
        by (symmetry; apply Z.eqb_neq; lia).
      rewrite Hdone. reflexivity.
    + intros j Hj. apply Hfail. lia.
  - simpl. lia.
  - simpl. unfold error_at. rewrite Hex. reflexivity.
  - discriminate.
Qed.

(** X5. A negative ceiling is never met by the counter: an operation that
    keeps failing with non-permanent errors is retried as long as the
    backoff controller grants it, and is invoked [i + 1] times when the
    controller is done at its selection [i]. *)
Theorem WithRetries_negative_ceiling b op exec st (i : nat) :
  retries b < 0 ->
  Z.of_nat i < int.max ->
  (forall j, (j <= i)%nat ->
     exists e, error_at exec j st = Some e /\ Is e ErrPermanent = false) ->
  (forall j, (j < i)%nat -> policy b j = backoff.Next) ->
  policy b i = backoff.Done ->
  exists out,
    (forall fuel, (i + 1 <= fuel)%nat -> WithRetries fuel b op exec st = Some out) /\
    calls out = (i + 1)%nat /\
    ret out = error_at exec i st /\
    ret out <> None.
Proof.
  intros HN Hi Hfail Hpol Hdone.
  destruct (Hfail i (le_n i)) as (e & He & Hperm).
  unfold error_at in He.
  destruct (exec (state_at exec i st)) as [err st'] eqn:Hex.
  simpl in He. subst err.
  exists {| ret := Some e; final := st'; calls := S i;
            logged := retry_log op exec (-1) i st
                      ++ [LogFinished (Z.of_nat i) op e] |}.
  split; [|split; [|split]].
  - intros fuel Hfuel. unfold WithRetries.
    replace fuel with (i + S (fuel - i - 1))%nat by lia.
    rewrite loop_retry_ne; [|lia|lia|intros; lia| |exact Hpol].
    + simpl Nat.add. simpl app. cbn [loop]. rewrite Hex, Hperm.
      rewrite incr_no_wrap by lia.
      replace (-1 + Z.of_nat i + 1) with (Z.of_nat i) by lia.
      replace (Z.of_nat i =? retries b) with false
        by (symmetry; apply Z.eqb_neq; lia).
      rewrite Hdone. reflexivity.
    + intros j Hj. apply Hfail. lia.
  - simpl. lia.
  - simpl. unfold error_at. rewrite Hex. reflexivity.
  - discriminate.
Qed.

End retryer_outcomes.

(** The statements above on an operation that counts its invocations and
    fails with a plain error until its third invocation. *)
Lemma WithRetries_returns_last_witness :
  exists out : outcome nat,
    (forall fuel, (2 < fuel)%nat ->
       WithRetries fuel {| policy := fun _ => backoff.Done; retries := 2 |}
         "op" (fun n : nat => (Some (errors.New "test"), S n)) 0%nat = Some out) /\
    (1 <= calls out <= 3)%nat /\
    ret out = error_at (fun n : nat => (Some (errors.New "test"), S n))
                       (calls out - 1) 0%nat /\
    final out = state_at (fun n : nat => (Some (errors.New "test"), S n))
                         (calls out) 0%nat.
Proof.
  apply (WithRetries_returns_last (St := nat)
           {| policy := fun _ => backoff.Done; retries := 2 |}
           "op" (fun n : nat => (Some (errors.New "test"), S n)) 0%nat).
  simpl. unfold int.max. lia.
Defined.

Lemma WithRetries_logs_each_failure_witness :
  exists out : outcome nat,
    (forall fuel, (2 < fuel)%nat ->
       WithRetries fuel {| policy := fun _ => backoff.Next; retries := 2 |}
         "op" (fun n : nat => (if (n =? 1)%nat then None
                               else Some (errors.New "test"), S n)) 0%nat
       = Some out) /\
    length (logged out) = (calls out - match ret out with Some _ => 0 | None => 1 end)%nat.
Proof.
  apply (WithRetries_logs_each_failure (St := nat)
           {| policy := fun _ => backoff.Next; retries := 2 |}
           "op" (fun n : nat => (if (n =? 1)%nat then None
                                 else Some (errors.New "test"), S n)) 0%nat).
  simpl. unfold int.max. lia.
Defined.

Lemma WithRetries_succeeds_at_witness :
  exists out : outcome nat,
    (forall fuel, (3 <= fuel)%nat ->
       WithRetries fuel {| policy := fun _ => backoff.Next; retries := 2 |}
         "op" (fun n : nat => (if (n =? 2)%nat then None
                               else Some (errors.New "test"), S n)) 0%nat
       = Some out) /\
    calls out = 3%nat /\ ret out = None /\ final out = 3%nat /\
    length (logged out) = 2%nat.
Proof.
  apply (WithRetries_succeeds_at (St := nat)
           {| policy := fun _ => backoff.Next; retries := 2 |}
           "op" (fun n : nat => (if (n =? 2)%nat then None
                                 else Some (errors.New "test"), S n)) 0%nat 3).
  - lia.
  - simpl. lia.
  - simpl. unfold int.max. lia.
  - intros j Hj. exists (errors.New "test").
    assert (j = 0 \/ j = 1)%nat as [-> | ->] by lia; split; reflexivity.
  - reflexivity.
  - reflexivity.
Defined.

Lemma WithRetries_backoff_done_witness :
  exists out : outcome nat,
    (forall fuel, (2 <= fuel)%nat ->
       WithRetries fuel
         {| policy := fun i => if (i =? 1)%nat then backoff.Done else backoff.Next;
            retries := 5 |}
         "op" (fun n : nat => (Some (errors.New "test"), S n)) 0%nat = Some out) /\
    calls out = 2%nat /\ ret out = Some (errors.New "test") /\ ret out <> None.
Proof.
  apply (WithRetries_backoff_done (St := nat)
           {| policy := fun i => if (i =? 1)%nat then backoff.Done else backoff.Next;
              retries := 5 |}
           "op" (fun n : nat => (Some (errors.New "test"), S n)) 0%nat 1).
  - simpl. unfold int.max. lia.
  - intros j _. exists (errors.New "test"). split; reflexivity.
  - intros j Hj. assert (j = 0)%nat as -> by lia. reflexivity.
  - reflexivity.
Defined.

Lemma WithRetries_negative_ceiling_witness :
  exists out : outcome nat,
    (forall fuel, (4 <= fuel)%nat ->
       WithRetries fuel
         {| policy := fun i => if (i <? 3)%nat then backoff.Next else backoff.Done;
            retries := -1 |}
         "op" (fun n : nat => (Some (errors.New "test"), S n)) 0%nat = Some out) /\
    calls out = 4%nat /\ ret out = Some (errors.New "test") /\ ret out <> None.
Proof.
  apply (WithRetries_negative_ceiling (St := nat)
           {| policy := fun i => if (i <? 3)%nat then backoff.Next else backoff.Done;
              retries := -1 |}
           "op" (fun n : nat => (Some (errors.New "test"), S n)) 0%nat 3).
  - simpl. lia.
  - unfold int.max. lia.
  - intros j _. exists (errors.New "test"). split; reflexivity.
  - intros j Hj.
    assert (j = 0 \/ j = 1 \/ j = 2)%nat as [-> | [-> | ->]] by lia; reflexivity.
  - reflexivity.
Defined.

(** ** Aborted-checks cache: further properties *)

(** Requests answered with transport errors leave the captured [ids] as
    they are and only advance the request counter. *)
Lemma fetch_errors_state (k : nat) :
  forall st,
    (forall j, (j < k)%nat ->
       exists e, answers (net st) (requests (net st) + j)%nat = GetError e) ->
    state_at fetch k st =
    {| ids := ids st;
       net := {| answers := answers (net st);
                 requests := (requests (net st) + k)%nat |} |}.
Proof.
  induction k as [|k IH]; intros st Herr.
  - simpl. rewrite Nat.add_0_r. destruct st as [i [a r]]. reflexivity.
  - rewrite state_at_succ.
    destruct (Herr 0%nat) as [e He]; [lia|]. rewrite Nat.add_0_r in He.
    assert (Hstep : (fetch st).2 =
      {| ids := ids st;
         net := {| answers := answers (net st);
                   requests := S (requests (net st)) |} |}).
    { unfold fetch. rewrite He. reflexivity. }
    rewrite Hstep, IH.
    + simpl. do 2 f_equal. lia.
    + simpl. intros j Hj. rewrite <- Nat.add_succ_r. apply Herr. lia.
Qed.

(** The request counter after [k] invocations of the closure, whatever
    the answers. *)
Lemma fetch_counts (k : nat) :
  forall st,
    requests (net (state_at fetch k st)) = (requests (net st) + k)%nat /\
    answers (net (state_at fetch k st)) = answers (net st).
Proof.
  induction k as [|k IH]; intros st.
  - simpl. split; [lia|reflexivity].
  - rewrite state_at_succ. destruct (IH (fetch st).2) as [Hr Ha].
    rewrite Hr, Ha. unfold fetch.
    destruct (answers (net st) (requests (net st))) as [e|code body]; simpl.
    + split; [lia|reflexivity].
    + destruct (negb (code =? http.StatusOK)); simpl; [split; [lia|reflexivity]|].
      destruct (json.Decode body [""]) as [ids' [e|]]; simpl;
        (split; [lia|reflexivity]).
Qed.

(** A refresh whose first [k] requests fail with transient transport
    errors, retried by the executor, and whose next request is answered,
    ends with that answer after [k + 1] requests. *)
Lemma WithRetries_fetch_retried fuel r n (k : nat) code body :
  Z.of_nat k <= retries r <= int.max ->
  (forall j, (j < k)%nat ->
     exists e, answers n (requests n + j)%nat = GetError e /\
               Is e ErrPermanent = false) ->
  (forall j, (j < k)%nat -> policy r j = backoff.Next) ->
  answers n (requests n + k)%nat = Response code body ->
  exists out,
    WithRetries (k + S fuel) r "GetAbortedChecks" fetch
      {| ids := []; net := n |} = Some out /\
    final out =
      (fetch {| ids := [];
                net := {| answers := answers n;
                          requests := (requests n + k)%nat |} |}).2 /\
    calls out = S k.
Proof.
  intros HN Herr Hpol Hans.
  assert (Hstate : forall j, (j <= k)%nat ->
    state_at fetch j {| ids := []; net := n |} =
    {| ids := [];
       net := {| answers := answers n; requests := (requests n + j)%nat |} |}).
  { intros j Hj. rewrite fetch_errors_state; [reflexivity|].
    simpl. intros i Hi. destruct (Herr i) as (e & He & _); [lia|]. eauto. }
  unfold WithRetries. rewrite loop_retry; [|lia|lia|lia| |exact Hpol].
  - rewrite (Hstate k (le_n k)). simpl Nat.add. simpl app.
    destruct (WithRetries_fetch_answered fuel r
                {| answers := answers n; requests := (requests n + k)%nat |}
                code body Hans) as (out & Hrun & Hfinal & Hcalls).
    unfold WithRetries in Hrun. cbn [loop] in Hrun |- *.
    destruct (fetch {| ids := [];
                       net := {| answers := answers n;
                                 requests := (requests n + k)%nat |} |})
      as [err st'] eqn:Hf.
    destruct err as [e|].
    + destruct (Is e ErrPermanent) eqn:Hperm.
      * eexists. split; [reflexivity|]. split; reflexivity.
      * exfalso. unfold fetch in Hf. simpl in Hf. rewrite Hans in Hf.
        destruct (negb (code =? http.StatusOK)).
        -- inversion Hf; subst. discriminate.
        -- destruct (json.Decode body [""]) as [ids' [derr|]];
             inversion Hf; subst. discriminate.
    + eexists. split; [reflexivity|]. split; reflexivity.
  - intros j Hj. unfold error_at. rewrite (Hstate j) by lia.
    destruct (Herr j Hj) as (e & He & Hperm).
    exists e. split; [|exact Hperm]. unfold fetch. simpl. rewrite He. reflexivity.
Qed.

(** X6. With a ceiling that is a non-negative [int], [IsAborted] returns for
    every receiver, endpoint and identifier; the error it returns is
    always nil, the boolean tells whether the identifier is in the cached
    set it leaves, and it sends at most ceiling plus one requests. *)
Theorem IsAborted_total_nil_error c n ID :
  0 <= retries (retryer c) <= int.max ->
  exists found c' n',
    (forall fuel, (Z.to_nat (retries (retryer c)) < fuel)%nat ->
       IsAborted fuel c n ID = Some ((found, None), c', n')) /\
    (found = true <-> ID ∈ canceled c') /\
    retryer c' = retryer c /\
    answers n' = answers n /\
    (requests n <= requests n'
       <= requests n + Z.to_nat (retries (retryer c)) + 1)%nat.
Proof.
  intros HN. destruct (decide (ID ∈ canceled c)) as [Hhit|Hmiss].
  - exists true, c, n. split; [|split; [|split; [|split]]].
    + intros fuel _. apply IsAborted_hit, Hhit.
    + tauto.
    + reflexivity.
    + reflexivity.
    + lia.
  - destruct (WithRetries_at_most (retryer c) "GetAbortedChecks" fetch
                {| ids := []; net := n |} HN) as (out & Hout & Hcalls).
    pose proof (Hout _ (Nat.lt_succ_diag_r _)) as Hrun.
    unfold WithRetries in Hrun. apply loop_result in Hrun.
    destruct Hrun as (_ & Hfinal & _ & _). rewrite Nat.sub_0_r in Hfinal.
    destruct (fetch_counts (calls out) {| ids := []; net := n |}) as [Hreq Hans].
    rewrite <- Hfinal in Hreq, Hans. simpl in Hreq, Hans.
    eexists _, _, _. split; [|split; [|split; [|split]]].
    + intros fuel Hfuel. apply IsAborted_miss; [exact Hmiss|]. apply Hout, Hfuel.
    + simpl. apply bool_decide_eq_true.
    + reflexivity.
    + exact Hans.
    + rewrite Hreq. lia.
Qed.

(** X7. A miss answered with a status other than 200 is not retried:
    [IsAborted] sends one request, returns false and a nil error, and
    leaves an empty cached set, whatever the set held before. *)
Theorem IsAborted_bad_status fuel c n ID code body :
  ID ∉ canceled c ->
  answers n (requests n) = Response code body ->
  code <> http.StatusOK ->
  IsAborted (S fuel) c n ID =
  Some ((false, None), {| canceled := ∅; retryer := retryer c |},
        {| answers := answers n; requests := S (requests n) |}).
Proof.
  intros Hmiss Hans Hcode.
  destruct (WithRetries_fetch_answered fuel (retryer c) n code body Hans)
    as (out & Hrun & Hfinal & _).
  rewrite (IsAborted_miss _ _ _ _ out Hmiss Hrun), Hfinal.
  unfold fetch. simpl. rewrite Hans.
  replace (code =? http.StatusOK) with false
    by (symmetry; apply Z.eqb_neq; exact Hcode).
  reflexivity.
Qed.

(** X8. When every request of a refresh fails with a transient transport
    error, the executor retrying up to the ceiling [N], [IsAborted] sends
    [N + 1] requests, returns false and a nil error, and leaves an empty
    cached set. *)
Theorem IsAborted_unreachable c n ID :
  ID ∉ canceled c ->
  0 <= retries (retryer c) <= int.max ->
  (forall j, (j <= Z.to_nat (retries (retryer c)))%nat ->
     exists e, answers n (requests n + j)%nat = GetError e /\
               Is e ErrPermanent = false) ->
  (forall j, (j < Z.to_nat (retries (retryer c)))%nat ->
     policy (retryer c) j = backoff.Next) ->
  forall fuel, (Z.to_nat (retries (retryer c)) < fuel)%nat ->
    IsAborted fuel c n ID =
    Some ((false, None), {| canceled := ∅; retryer := retryer c |},
          {| answers := answers n;
             requests := (requests n + Z.to_nat (retries (retryer c)) + 1)%nat |}).
Proof.
  intros Hmiss HN Herr Hpol fuel Hfuel.
  set (N := Z.to_nat (retries (retryer c))) in *.
  assert (Hstate : forall j, (j <= N)%nat ->
    state_at fetch j {| ids := []; net := n |} =
    {| ids := [];
       net := {| answers := answers n; requests := (requests n + j)%nat |} |}).
  { intros j Hj. rewrite fetch_errors_state; [reflexivity|].
    simpl. intros i Hi. destruct (Herr i) as (e & He & _); [lia|]. eauto. }
  destruct (Herr N (le_n N)) as (e & He & Hperm).
  assert (Hrun : WithRetries fuel (retryer c) "GetAbortedChecks" fetch
                   {| ids := []; net := n |} =
    Some {| ret := Some e;
            final := {| ids := [];
                        net := {| answers := answers n;
                                  requests := S (requests n + N) |} |};
            calls := S N;
            logged := retry_log "GetAbortedChecks" fetch (-1) N
                                {| ids := []; net := n |}
                      ++ [LogFinished (retries (retryer c))
                                      "GetAbortedChecks" e] |}).
  { unfold WithRetries. replace fuel with (N + S (fuel - N - 1))%nat by lia.
    rewrite loop_retry; [|lia|lia|lia| |exact Hpol].
    - rewrite (Hstate N (le_n N)).
      replace (-1 + Z.of_nat N) with (retries (retryer c) - 1) by lia.
      simpl Nat.add. simpl app.
      erewrite loop_ceiling; [reflexivity|exact HN| |exact Hperm].
      unfold fetch. simpl. rewrite He. reflexivity.
    - intros j Hj. unfold error_at. rewrite (Hstate j) by lia.
      destruct (Herr j) as (e' & He' & Hperm'); [lia|].
      exists e'. split; [|exact Hperm'].
      unfold fetch. simpl. rewrite He'. reflexivity. }
  rewrite (IsAborted_miss _ _ _ _ _ Hmiss Hrun). simpl.
  do 3 f_equal. lia.
Qed.

(** X9. When the first [k] requests of a refresh fail with transient transport
    errors, within the ceiling and with their retries granted, and the next
    one is answered with status 200 and a JSON array of strings, [IsAborted]
    sends [k + 1] requests, installs these strings as the cached set and
    tells whether the identifier is among them. *)
Theorem IsAborted_retry_then_refresh fuel c n ID (k : nat) (l : list string) :
  ID ∉ canceled c ->
  Z.of_nat k <= retries (retryer c) <= int.max ->
  (forall j, (j < k)%nat ->
     exists e, answers n (requests n + j)%nat = GetError e /\
               Is e ErrPermanent = false) ->
  (forall j, (j < k)%nat -> policy (retryer c) j = backoff.Next) ->
  answers n (requests n + k)%nat =
    Response 200 (json.Document (json.JArray (json.JString <$> l))) ->
  IsAborted (k + S fuel) c n ID =
  Some ((bool_decide (ID ∈ l), None),
        {| canceled := list_to_set l; retryer := retryer c |},
        {| answers := answers n; requests := (requests n + k + 1)%nat |}).
Proof.
  intros Hmiss HN Herr Hpol Hans.
  destruct (WithRetries_fetch_retried fuel (retryer c) n k _ _ HN Herr Hpol Hans)
    as (out & Hrun & Hfinal & _).
  rewrite (IsAborted_miss _ _ _ _ out Hmiss Hrun), Hfinal.
  unfold fetch. simpl. rewrite Hans. simpl.
  rewrite store_elems_strings. simpl.
  rewrite bool_decide_fill, fill_list_to_set. do 3 f_equal. lia.
Qed.

(** X10. A lookup that misses and whose refresh does not list the identifier
    caches nothing about it: the same lookup, repeated, misses again and
    sends a further request, whose answer decides. *)
Theorem IsAborted_no_negative_cache fuel c n ID (l l' : list string) :
  ID ∉ canceled c ->
  ID ∉ l ->
  answers n (requests n) =
    Response 200 (json.Document (json.JArray (json.JString <$> l))) ->
  answers n (S (requests n)) =
    Response 200 (json.Document (json.JArray (json.JString <$> l'))) ->
  exists c1 n1,
    IsAborted (S fuel) c n ID = Some ((false, None), c1, n1) /\
    requests n1 = S (requests n) /\
    IsAborted (S fuel) c1 n1 ID =
    Some ((bool_decide (ID ∈ l'), None),
          {| canceled := list_to_set l'; retryer := retryer c |},
          {| answers := answers n; requests := S (S (requests n)) |}).
Proof.
  intros Hmiss Hout Hans Hans'.
  eexists _, _. split; [|split].
  - rewrite (IsAborted_refresh_200 fuel c n ID _ Hmiss Hans).
    rewrite Decode_strings. simpl. rewrite bool_decide_fill.
    rewrite bool_decide_eq_false_2 by exact Hout. reflexivity.
  - reflexivity.
  - rewrite (IsAborted_refresh_200 fuel _ _ ID
               (json.Document (json.JArray (json.JString <$> l')))).
    + rewrite Decode_strings. simpl.
      rewrite bool_decide_fill, fill_list_to_set. reflexivity.
    + simpl. rewrite elem_of_fill. exact Hout.
    + exact Hans'.
Qed.

(** X11. A refresh answered with status 200 and the JSON value null, or the
    empty array, empties the cached set: identifiers cached before are
    forgotten. *)
Theorem IsAborted_empty_answer fuel c n ID body :
  ID ∉ canceled c ->
  body = json.Document json.JNull \/ body = json.Document (json.JArray []) ->
  answers n (requests n) = Response 200 body ->
  IsAborted (S fuel) c n ID =
    Some ((false, None), {| canceled := ∅; retryer := retryer c |},
          {| answers := answers n; requests := S (requests n) |}).
Proof.
  intros Hmiss Hbody Hans.
  rewrite (IsAborted_refresh_200 fuel c n ID body Hmiss Hans).
  destruct Hbody as [-> | ->]; reflexivity.
Qed.

(** The statements above on a receiver that caches a, with ceiling 2 and
    every retry granted. *)
Lemma IsAborted_total_nil_error_witness :
  let c := {| canceled := {[ "a" ]};
              retryer := {| policy := fun _ => backoff.Next; retries := 2 |} |} in
  let n := {| answers := fun _ => Response 503 json.Malformed; requests := 0 |} in
  exists found c' n',
    (forall fuel, (2 < fuel)%nat ->
       IsAborted fuel c n "b" = Some ((found, None), c', n')) /\
    (found = true <-> "b" ∈ canceled c') /\
    retryer c' = retryer c /\
    answers n' = answers n /\
    (0 <= requests n' <= 3)%nat.
Proof.
  intros c n.
  apply (IsAborted_total_nil_error c n "b").
  simpl. unfold int.max. lia.
Defined.

Lemma IsAborted_bad_status_witness :
  let r := {| policy := fun _ => backoff.Next; retries := 2 |} in
  let n := {| answers := fun _ => Response 503 json.Malformed; requests := 0 |} in
  IsAborted 1 {| canceled := {[ "a" ]}; retryer := r |} n "b" =
  Some ((false, None), {| canceled := ∅; retryer := r |},
        {| answers := answers n; requests := 1 |}).
Proof.
  intros r n.
  apply (IsAborted_bad_status 0 {| canceled := {[ "a" ]}; retryer := r |} n "b"
           503 json.Malformed).
  - simpl. intros H. apply elem_of_singleton in H. discriminate.
  - reflexivity.
  - discriminate.
Defined.

Lemma IsAborted_unreachable_witness :
  let r := {| policy := fun _ => backoff.Next; retries := 2 |} in
  let n := {| answers := fun _ => GetError (errors.New "connection refused");
              requests := 0 |} in
  IsAborted 3 {| canceled := {[ "a" ]}; retryer := r |} n "b" =
  Some ((false, None), {| canceled := ∅; retryer := r |},
        {| answers := answers n; requests := 3 |}).
Proof.
  intros r n.
  apply (IsAborted_unreachable {| canceled := {[ "a" ]}; retryer := r |} n "b").
  - simpl. intros H. apply elem_of_singleton in H. discriminate.
  - simpl. unfold int.max. lia.
  - intros j _. exists (errors.New "connection refused"). split; reflexivity.
  - reflexivity.
  - simpl. lia.
Defined.

Lemma IsAborted_retry_then_refresh_witness :
  let r := {| policy := fun _ => backoff.Next; retries := 2 |} in
  let n := {| answers := fun i =>
                if (i =? 0)%nat then GetError (errors.New "timeout")
                else Response 200 (json.Document
                                     (json.JArray (json.JString <$> ["b"; "x"])));
              requests := 0 |} in
  IsAborted 2 (New r) n "b" =
  Some ((true, None), {| canceled := list_to_set ["b"; "x"]; retryer := r |},
        {| answers := answers n; requests := 2 |}).
Proof.
  intros r n.
  apply (IsAborted_retry_then_refresh 0 (New r) n "b" 1 ["b"; "x"]).
  - apply not_elem_of_empty.
  - simpl. unfold int.max. lia.
  - intros j Hj. assert (j = 0)%nat as -> by lia.
    exists (errors.New "timeout"). split; reflexivity.
  - reflexivity.
  - reflexivity.
Defined.

Lemma IsAborted_no_negative_cache_witness :
  let r := {| policy := fun _ => backoff.Next; retries := 2 |} in
  let n := {| answers := fun i =>
                Response 200
                  (json.Document
                     (json.JArray (json.JString <$>
                                     (if (i =? 0)%nat then ["a"] else ["a"; "b"]))));
              requests := 0 |} in
  exists c1 n1,
    IsAborted 1 (New r) n "b" = Some ((false, None), c1, n1) /\
    requests n1 = 1%nat /\
    IsAborted 1 c1 n1 "b" =
    Some ((true, None),
          {| canceled := list_to_set ["a"; "b"]; retryer := r |},
          {| answers := answers n; requests := 2 |}).
Proof.
  intros r n.
  apply (IsAborted_no_negative_cache 0 (New r) n "b" ["a"] ["a"; "b"]).
  - apply not_elem_of_empty.
  - intros H. apply list_elem_of_singleton in H. discriminate.
  - reflexivity.
  - reflexivity.
Defined.

Lemma IsAborted_empty_answer_witness :
  let r := {| policy := fun _ => backoff.Next; retries := 2 |} in
  let n := {| answers := fun _ => Response 200 (json.Document json.JNull);
              requests := 0 |} in
  IsAborted 1 {| canceled := {[ "a" ]}; retryer := r |} n "b" =
  Some ((false, None), {| canceled := ∅; retryer := r |},
        {| answers := answers n; requests := 1 |}).
Proof.
  intros r n.
  apply (IsAborted_empty_answer 0 {| canceled := {[ "a" ]}; retryer := r |} n "b"
           (json.Document json.JNull)).
  - simpl. intros H. apply elem_of_singleton in H. discriminate.
  - left. reflexivity.
  - reflexivity.
Defined.

(** ** Execution backend: further properties *)

Import trace.

Lemma append_assoc (s1 s2 s3 : string) :
  (s1 +:+ s2) +:+ s3 = s1 +:+ (s2 +:+ s3).
Proof.
  induction s1 as [|a s1 IH]; [reflexivity|].
  change (String a ((s1 +:+ s2) +:+ s3) = String a (s1 +:+ (s2 +:+ s3))).
  rewrite IH. reflexivity.
Qed.

Lemma Is_refl e : Is e e = true.
Proof. destruct e; simpl; rewrite bool_decide_eq_true_2; reflexivity. Qed.

(** A wrapping error matches whatever its cause matches. *)
Lemma Is_Errorf_w prefix e target :
  Is e target = true -> Is (Errorf_w prefix e) target = true.
Proof.
  intros H. unfold Errorf_w. simpl. rewrite H.
  destruct (bool_decide _); reflexivity.
Qed.

Lemma creates_failed_pulls k image : creates (failed_pulls k image) = [].
Proof. induction k as [|k IH]; [reflexivity|exact IH]. Qed.

Lemma sent_failed_pulls k image : sent (failed_pulls k image) = [].
Proof. induction k as [|k IH]; [reflexivity|exact IH]. Qed.

Lemma pulls_failed_pulls k image : pulls (failed_pulls k image) = replicate k image.
Proof. induction k as [|k IH]; [reflexivity|]. simpl. f_equal. exact IH. Qed.

Lemma errorfs_failed_pulls k image :
  errorfs (failed_pulls k image) =
  replicate k ("Error pulling Docker image " +:+ image).
Proof. induction k as [|k IH]; [reflexivity|]. simpl. f_equal. exact IH. Qed.

(** [k] attempts that the backoff controller grants and that fail are [k]
    turns of the pull loop. *)
Lemma pull_loop_failed b policy image (k : nat) :
  forall j fuel,
    (forall i, (i < k)%nat ->
       backoff.Continue policy (j + i) = true /\
       Pull (cli b) (j + i)%nat image <> None) ->
    pull_loop (k + fuel) b policy image j =
    match pull_loop fuel b policy image (j + k) with
    | None => None
    | Some (err, evs) => Some (err, failed_pulls k image ++ evs)
    end.
Proof.
  induction k as [|k IH]; intros j fuel Hfail.
  - simpl. rewrite Nat.add_0_r.
    destruct (pull_loop fuel b policy image j) as [[e evs]|]; reflexivity.
  - destruct (Hfail 0%nat) as [Hc Hp]; [lia|]. rewrite Nat.add_0_r in Hc, Hp.
    cbn [Nat.add pull_loop]. rewrite Hc.
    destruct (Pull (cli b) j image) as [e|]; [|congruence].
    rewrite IH.
    + replace (S j + k)%nat with (j + S k)%nat by lia.
      destruct (pull_loop fuel b policy image (j + S k)) as [[e' evs]|];
        reflexivity.
    + intros i Hi. replace (S j + i)%nat with (j + S i)%nat by lia.
      apply Hfail. lia.
Qed.

Section backend_outcomes.

Variable names : VarNames.
Variable NewExponential : Z -> Z -> backoff.Policy.

(** The routine never pulls an image. *)
Lemma pulls_run b params : pulls (run names b params) = [].
Proof.
  unfold run, cleanup;
  repeat match goal with
         | |- context [let '(_, _) := ?x in _] => destruct x as [? ?] eqn:?
         | |- context [match ?x with Some _ => _ | None => _ end] =>
           destruct x eqn:?
         | |- context [match ?x with (_, _) => _ end] => destruct x as [? ?] eqn:?
         | |- context [if ?x then _ else _] => destruct x eqn:?
         end; reflexivity.
Qed.

(** X12. When a registry is configured and every pull fails until the backoff
    controller is done, at its selection [m], [Run] makes [m] attempts,
    logs each failure, and returns the nil channel with a fixed error that
    does not carry the errors of the pulls; no container is created and
    nothing is sent. *)
Theorem Run_pull_exhausted b params (m : nat) :
  Server (config b) <> "" ->
  (forall i, (i < m)%nat ->
     backoff.Continue (NewExponential (BackoffInterval (config b))
                                      (BackoffMaxRetries (config b))) i = true /\
     Pull (cli b) i (Image params) <> None) ->
  backoff.Continue (NewExponential (BackoffInterval (config b))
                                   (BackoffMaxRetries (config b))) m = false ->
  exists st,
    (forall fuel, (m < fuel)%nat ->
       Run names NewExponential fuel b params = Some st) /\
    res st = None /\
    err st = Some (errors.New "backoff retry exceeded pulling Docker image") /\
    pulls (events st) = replicate m (Image params) /\
    errorfs (events st) =
      replicate m ("Error pulling Docker image " +:+ Image params) /\
    creates (events st) = [] /\
    sent (events st) = [].
Proof.
  intros Hsrv Hfail Hdone.
  exists {| res := None;
            err := Some (errors.New "backoff retry exceeded pulling Docker image");
            events := failed_pulls m (Image params) |}.
  split; [|split; [|split; [|split; [|split; [|split]]]]].
  - intros fuel Hfuel. unfold Run, pullWithBackoff.
    rewrite bool_decide_eq_true_2 by exact Hsrv.
    replace fuel with (m + S (fuel - m - 1))%nat by lia.
    rewrite pull_loop_failed by (intros i Hi; simpl; apply Hfail, Hi).
    cbn [pull_loop Nat.add]. rewrite Hdone. rewrite app_nil_r. reflexivity.
  - reflexivity.
  - reflexivity.
  - apply pulls_failed_pulls.
  - apply errorfs_failed_pulls.
  - apply creates_failed_pulls.
  - apply sent_failed_pulls.
Qed.

(** X13. When a registry is configured and the pull succeeds at attempt [k]
    (counted from 0), the earlier attempts having been granted and having
    failed, [Run] pulls [k + 1] times, then starts the routine and returns
    its channel and a nil error. *)
Theorem Run_after_pull b params (k : nat) :
  Server (config b) <> "" ->
  (forall i, (i < k)%nat ->
     backoff.Continue (NewExponential (BackoffInterval (config b))
                                      (BackoffMaxRetries (config b))) i = true /\
     Pull (cli b) i (Image params) <> None) ->
  backoff.Continue (NewExponential (BackoffInterval (config b))
                                   (BackoffMaxRetries (config b))) k = true ->
  Pull (cli b) k (Image params) = None ->
  exists st,
    (forall fuel, (k < fuel)%nat ->
       Run names NewExponential fuel b params = Some st) /\
    res st = Some (sent (run names b params)) /\
    err st = None /\
    events st = failed_pulls k (Image params)
                  ++ EvPull Caller (Image params) :: run names b params /\
    pulls (events st) = replicate (S k) (Image params).
Proof.
  intros Hsrv Hfail Hgrant Hok.
  exists {| res := Some (sent (run names b params)); err := None;
            events := (failed_pulls k (Image params)
                         ++ [EvPull Caller (Image params)])
                        ++ run names b params |}.
  split; [|split; [|split; [|split]]].
  - intros fuel Hfuel. unfold Run, pullWithBackoff.
    rewrite bool_decide_eq_true_2 by exact Hsrv.
    replace fuel with (k + S (fuel - k - 1))%nat by lia.
    rewrite pull_loop_failed by (intros i Hi; simpl; apply Hfail, Hi).
    cbn [pull_loop Nat.add]. rewrite Hgrant, Hok. reflexivity.
  - reflexivity.
  - reflexivity.
  - simpl. rewrite <- app_assoc. reflexivity.
  - cbn [events]. rewrite replicate_S_end.
    unfold pulls. rewrite !omap_app.
    fold (pulls (failed_pulls k (Image params))).
    fold (pulls (run names b params)).
    rewrite pulls_failed_pulls, pulls_run, app_nil_r. reflexivity.
Qed.

(** X14. Without a registry, [Run] pulls nothing: it starts the routine at once,
    for any fuel, and returns its channel. *)
Theorem Run_without_registry fuel b params :
  Server (config b) = "" ->
  exists st,
    Run names NewExponential fuel b params = Some st /\
    res st = Some (sent (run names b params)) /\
    err st = None /\
    events st = run names b params /\
    pulls (events st) = [].
Proof.
  intros Hsrv. eexists. split.
  - unfold Run. rewrite bool_decide_eq_false_2 by (intros H; apply H, Hsrv).
    reflexivity.
  - simpl. repeat split. apply pulls_run.
Qed.

(** X15. When the creation of the container fails, the routine sends the error
    of the creation as it is and does nothing else: no start, no removal. *)
Theorem run_create_failure b params contID e :
  Create (cli b) (getRunConfig names b params) (CheckID params) = (contID, Some e) ->
  run names b params =
    [EvCreate Caller (getRunConfig names b params) (CheckID params);
     EvSend {| Output := []; Error := Some e |}] /\
  starts (run names b params) = [] /\
  removals (run names b params) = [].
Proof.
  intros Hcreate. unfold run. rewrite Hcreate. repeat split.
Qed.

(** X16. When the start of the container fails, the routine sends an error that
    wraps the error of the start and names the check, does not wait for
    the container, and removes the container once. *)
Theorem run_start_failure b params contID e :
  Create (cli b) (getRunConfig names b params) (CheckID params) = (contID, None) ->
  ContainerStart (cli b) contID = Some e ->
  exists e',
    run names b params =
      EvCreate Caller (getRunConfig names b params) (CheckID params)
        :: EvContainerStart Caller contID
        :: EvSend {| Output := []; Error := Some e' |}
        :: cleanup b params contID (Some e) /\
    errors.Unwrap e' = Some e /\
    Is e' e = true /\
    errors.Error e' = "error starting container for check " +:+ CheckID params
                        +:+ ": " +:+ errors.Error e /\
    waits (run names b params) = [] /\
    removals (run names b params) = [(Background, contID, true)].
Proof.
  intros Hcreate Hstart.
  assert (Hrun : run names b params =
      EvCreate Caller (getRunConfig names b params) (CheckID params)
        :: EvContainerStart Caller contID
        :: EvSend {| Output := [];
                     Error := Some (Errorf_w ("error starting container for check "
                                              +:+ CheckID params +:+ ": ") e) |}
        :: cleanup b params contID (Some e)).
  { unfold run. rewrite Hcreate, Hstart. reflexivity. }
  eexists. split; [exact Hrun|]. split; [reflexivity|].
  split; [apply Is_Errorf_w, Is_refl|]. split.
  - simpl. rewrite !append_assoc. reflexivity.
  - rewrite Hrun. unfold cleanup.
    destruct (ContainerRemove (cli b) contID); split; reflexivity.
Qed.

(** X17. When the wait fails with an error that is neither the cancellation nor
    the deadline error, the routine sends an error that wraps it, requests
    neither a stop nor the logs, and removes the container once. *)
Theorem run_wait_failure b params contID e :
  Create (cli b) (getRunConfig names b params) (CheckID params) = (contID, None) ->
  ContainerStart (cli b) contID = None ->
  (ContainerWait (cli b) contID).2 = Some e ->
  Is e context.Canceled = false ->
  Is e context.DeadlineExceeded = false ->
  exists e',
    sent (run names b params) = [{| Output := []; Error := Some e' |}] /\
    errors.Unwrap e' = Some e /\
    Is e' e = true /\
    stops (run names b params) = [] /\
    collected (run names b params) = [] /\
    removals (run names b params) = [(Background, contID, true)].
Proof.
  intros Hcreate Hstart Hwait Hc Hd.
  assert (Hrun : run names b params =
      EvCreate Caller (getRunConfig names b params) (CheckID params)
        :: EvContainerStart Caller contID
        :: EvContainerWait Caller contID
        :: EvSend {| Output := [];
                     Error := Some (Errorf_w ("error running container for check "
                                              +:+ CheckID params +:+ ": ") e) |}
        :: cleanup b params contID (Some e)).
  { unfold run. rewrite Hcreate, Hstart, Hwait. cbn [IsNil]. rewrite Hc, Hd.
    rewrite bool_decide_eq_true_2 by discriminate. reflexivity. }
  eexists. rewrite Hrun. cbn [sent stops collected removals omap list_omap].
  rewrite sent_cleanup, stops_cleanup, collected_cleanup, removals_cleanup.
  split; [reflexivity|]. split; [reflexivity|].
  split; [apply Is_Errorf_w, Is_refl|]. repeat split.
Qed.

(** X18. When the request for the logs fails, the routine sends an error that
    wraps it; no reader was opened, so none is closed; the container is
    removed once. *)
Theorem run_logs_failure b params contID r e :
  Create (cli b) (getRunConfig names b params) (CheckID params) = (contID, None) ->
  ContainerStart (cli b) contID = None ->
  (ContainerWait (cli b) contID).2 = None ->
  ContainerLogs (cli b) contID = (r, Some e) ->
  exists e',
    sent (run names b params) = [{| Output := []; Error := Some e' |}] /\
    errors.Unwrap e' = Some e /\
    Is e' e = true /\
    closes (run names b params) = 0%nat /\
    removals (run names b params) = [(Background, contID, true)].
Proof.
  intros Hcreate Hstart Hwait Hlogs.
  assert (Hrun : run names b params =
      EvCreate Caller (getRunConfig names b params) (CheckID params)
        :: EvContainerStart Caller contID
        :: EvContainerWait Caller contID
        :: EvContainerLogs Caller contID true true
        :: EvSend {| Output := [];
                     Error := Some (Errorf_w ("error getting logs for check "
                                              +:+ CheckID params +:+ ": ") e) |}
        :: cleanup b params contID (Some e)).
  { unfold run. rewrite Hcreate, Hstart, Hwait, Hlogs.
    rewrite bool_decide_eq_false_2 by (intros H; apply H; reflexivity).
    reflexivity. }
  eexists. rewrite Hrun. unfold cleanup.
  destruct (ContainerRemove (cli b) contID);
    (split; [reflexivity|]); (split; [reflexivity|]);
    (split; [apply Is_Errorf_w, Is_refl|]); split; reflexivity.
Qed.

(** X19. When the logs are obtained but cannot be read to their end, the
    routine sends an error that wraps the error of the reading, with no
    output, closes the reader once, before the removal, and removes the
    container once. *)
Theorem run_read_failure b params contID r e :
  Create (cli b) (getRunConfig names b params) (CheckID params) = (contID, None) ->
  ContainerStart (cli b) contID = None ->
  (ContainerWait (cli b) contID).2 = None ->
  ContainerLogs (cli b) contID = (r, None) ->
  (stdcopy.StdCopy r).2 = Some e ->
  exists e',
    run names b params =
      EvCreate Caller (getRunConfig names b params) (CheckID params)
        :: EvContainerStart Caller contID
        :: EvContainerWait Caller contID
        :: EvContainerLogs Caller contID true true
        :: EvSend {| Output := []; Error := Some e' |}
        :: EvClose
        :: cleanup b params contID (Some e) /\
    errors.Unwrap e' = Some e /\
    Is e' e = true /\
    closes (run names b params) = 1%nat /\
    removals (run names b params) = [(Background, contID, true)].
Proof.
  intros Hcreate Hstart Hwait Hlogs Hcopy.
  assert (Hread : readContainerLogs r = ([], Some e)).
  { unfold readContainerLogs. destruct (stdcopy.StdCopy r) as [[bout berr] err'].
    simpl in Hcopy. subst err'. reflexivity. }
  assert (Hrun : run names b params =
      EvCreate Caller (getRunConfig names b params) (CheckID params)
        :: EvContainerStart Caller contID
        :: EvContainerWait Caller contID
        :: EvContainerLogs Caller contID true true
        :: EvSend {| Output := [];
                     Error := Some (Errorf_w ("error reading logs for check "
                                              +:+ CheckID params +:+ ": ") e) |}
        :: EvClose
        :: cleanup b params contID (Some e)).
  { unfold run. rewrite Hcreate, Hstart, Hwait, Hlogs, Hread.
    rewrite bool_decide_eq_false_2 by (intros H; apply H; reflexivity).
    reflexivity. }
  eexists. split; [exact Hrun|]. split; [reflexivity|].
  split; [apply Is_Errorf_w, Is_refl|].
  rewrite Hrun. unfold cleanup.
  destruct (ContainerRemove (cli b) contID); split; reflexivity.
Qed.

(** X20. Once the container is created and started, a stop is requested exactly
    when the wait returns the cancellation or the deadline error, and then
    once, with the background context and the five-second timeout. *)
Theorem run_stops_iff_cancelled b params contID :
  Create (cli b) (getRunConfig names b params) (CheckID params) = (contID, None) ->
  ContainerStart (cli b) contID = None ->
  stops (run names b params) =
    if IsNil (ContainerWait (cli b) contID).2 context.Canceled
       || IsNil (ContainerWait (cli b) contID).2 context.DeadlineExceeded
    then [(Background, contID, abortTimeout)]
    else [].
Proof.
  intros Hcreate Hstart. unfold run. rewrite Hcreate, Hstart.
  destruct (ContainerWait (cli b) contID) as [status werr]. cbn [snd].
  destruct werr as [e|]; cbn [IsNil].
  - destruct (Is e context.Canceled), (Is e context.DeadlineExceeded);
      rewrite ?bool_decide_eq_true_2 by discriminate;
      cbn [andb orb negb stops omap list_omap];
      rewrite stops_cleanup; reflexivity.
  - rewrite bool_decide_eq_false_2 by (intros H; apply H; reflexivity).
    cbn [andb orb negb].
    destruct (ContainerLogs (cli b) contID) as [r [e|]].
    + cbn [stops omap list_omap]. rewrite stops_cleanup. reflexivity.
    + destruct (readContainerLogs r) as [out [e|]];
        cbn [stops omap list_omap]; rewrite stops_cleanup; reflexivity.
Qed.

(** X21. A failure of the removal changes nothing in what the routine sends,
    and the error of the removal is reported nowhere: two clients whose
    removals fail with different errors give the same events, log message
    included. *)
Theorem run_removal_error_unreported b params (e1 e2 : error) :
  run names (with_remove b (Some e1)) params =
  run names (with_remove b (Some e2)) params /\
  sent (run names (with_remove b (Some e1)) params) =
  sent (run names (with_remove b None) params).
Proof.
  split; [reflexivity|].
  assert (Hcfg : forall x, getRunConfig names (with_remove b x) params =
                           getRunConfig names b params) by reflexivity.
  unfold run, cleanup; rewrite !Hcfg;
  cbn [with_remove cli Create ContainerStart ContainerWait
       ContainerLogs ContainerRemove];
  repeat match goal with
         | |- context [let '(_, _) := ?x in _] => destruct x as [? ?] eqn:?
         | |- context [match ?x with Some _ => _ | None => _ end] =>
           destruct x eqn:?
         | |- context [match ?x with (_, _) => _ end] => destruct x as [? ?] eqn:?
         | |- context [if ?x then _ else _] => destruct x eqn:?
         end; reflexivity.
Qed.


End backend_outcomes.

(** The accumulating loop of [StdCopy] on frames it recognizes: the
    frames tagged as standard input go where those of standard output
    go. *)
Lemma copy_recognized fs :
  forall dstout dsterr failure,
    Forall (fun f => stdcopy.tag f <> stdcopy.Unrecognized) fs ->
    stdcopy.copy dstout dsterr fs failure =
    (dstout ++ concat (stdcopy.payload <$>
                         filter (fun f => stdcopy.tag f = stdcopy.Stdin \/
                                          stdcopy.tag f = stdcopy.Stdout) fs),
     dsterr ++ concat (stdcopy.payload <$>
                         filter (fun f => stdcopy.tag f = stdcopy.Stderr) fs),
     failure).
Proof.
  induction fs as [|f fs IH]; intros dstout dsterr failure Htags.
  - simpl. rewrite !app_nil_r. reflexivity.
  - inversion Htags as [|? ? Hf Hfs]; subst.
    cbn [stdcopy.copy]. rewrite !filter_cons.
    destruct (stdcopy.tag f) eqn:Htag; try congruence;
      rewrite IH by assumption.
    + rewrite decide_True by (left; reflexivity).
      rewrite decide_False by discriminate.
      rewrite fmap_cons. cbn [concat]. rewrite <- app_assoc. reflexivity.
    + rewrite decide_True by (right; reflexivity).
      rewrite decide_False by discriminate.
      rewrite fmap_cons. cbn [concat]. rewrite <- app_assoc. reflexivity.
    + rewrite decide_False by (intros [H|H]; discriminate).
      rewrite decide_True by reflexivity.
      rewrite fmap_cons. cbn [concat]. rewrite <- app_assoc. reflexivity.
Qed.

(** The loop fails when the reader fails or a frame is not recognized. *)
Lemma copy_fails fs :
  forall dstout dsterr failure,
    failure <> None \/
    Exists (fun f => stdcopy.tag f = stdcopy.Unrecognized) fs ->
    (stdcopy.copy dstout dsterr fs failure).2 <> None.
Proof.
  induction fs as [|f fs IH]; intros dstout dsterr failure Hbad.
  - simpl. destruct Hbad as [H|H]; [exact H|inversion H].
  - cbn [stdcopy.copy].
    destruct (stdcopy.tag f) eqn:Htag; simpl; try discriminate;
      apply IH;
      (destruct Hbad as [H|H];
       [left; exact H
       |inversion H as [? ? Hhd|? ? Htl]; subst;
        [congruence|right; exact Htl]]).
Qed.

(** X23. On a log stream whose frames are all recognized and that is read to
    its end, [readContainerLogs] returns what the frames of standard input
    and standard output carry, in order, one newline, and what the frames
    of standard error carry; the output is never empty, even for a
    container that wrote nothing. *)
Theorem readContainerLogs_success r :
  stdcopy.failure r = None ->
  Forall (fun f => stdcopy.tag f <> stdcopy.Unrecognized) (stdcopy.frames r) ->
  readContainerLogs r =
    (concat (stdcopy.payload <$>
               filter (fun f => stdcopy.tag f = stdcopy.Stdin \/
                                stdcopy.tag f = stdcopy.Stdout) (stdcopy.frames r))
       ++ [Byte.x0a] ++ stdcopy.written stdcopy.Stderr r, None) /\
  (1 <= length (readContainerLogs r).1)%nat.
Proof.
  intros Hend Htags.
  assert (Hread : readContainerLogs r =
    (concat (stdcopy.payload <$>
               filter (fun f => stdcopy.tag f = stdcopy.Stdin \/
                                stdcopy.tag f = stdcopy.Stdout) (stdcopy.frames r))
       ++ [Byte.x0a] ++ stdcopy.written stdcopy.Stderr r, None)).
  { unfold readContainerLogs, stdcopy.StdCopy.
    rewrite Hend, copy_recognized by assumption. reflexivity. }
  split; [exact Hread|]. rewrite Hread. cbn [fst].
  rewrite !length_app. cbn [length]. lia.
Qed.

(** X24. When the reader fails or a frame is not recognized, [readContainerLogs]
    returns an error and no output: what was read before is dropped. *)
Theorem readContainerLogs_failure r :
  stdcopy.failure r <> None \/
  Exists (fun f => stdcopy.tag f = stdcopy.Unrecognized) (stdcopy.frames r) ->
  exists e, readContainerLogs r = ([], Some e).
Proof.
  intros Hbad. unfold readContainerLogs, stdcopy.StdCopy.
  pose proof (copy_fails (stdcopy.frames r) [] [] (stdcopy.failure r) Hbad) as Hcopy.
  destruct (stdcopy.copy [] [] (stdcopy.frames r) (stdcopy.failure r))
    as [[bout berr] [e|]]; simpl in Hcopy; [|congruence].
  exists e. reflexivity.
Qed.

(** ** Agent address *)

Import agentaddr.

Section agent_address.

Variable ResolveTCPAddr : string -> TCPAddr * option error.
Variable InterfaceByName : string -> Interface * option error.
Variable ParseCIDR : string -> IP * option error.
Variable TCPAddr_String : TCPAddr -> string.

(** The loop skips the addresses that parse and are not IPv4. *)
Lemma scan_skip connAddr (pre rest : list string) :
  (forall a, a ∈ pre -> exists ip, ParseCIDR a = (ip, None) /\ To4 ip = None) ->
  scan ParseCIDR TCPAddr_String connAddr (pre ++ rest) =
  scan ParseCIDR TCPAddr_String connAddr rest.
Proof.
  induction pre as [|a pre IH]; intros Hpre; [reflexivity|].
  destruct (Hpre a) as (ip & Hparse & Hv6); [apply list_elem_of_here|].
  cbn [app scan]. rewrite Hparse, Hv6.
  rewrite bool_decide_eq_false_2 by (intros H; apply H; reflexivity).
  apply IH. intros a' Ha'. apply Hpre, list_elem_of_further, Ha'.
Qed.

(** X25. [getAgentAddr] answers with the first IPv4 address of the interface,
    in the order the interface lists its addresses, joined to the resolved
    port; the addresses before it that are not IPv4 are skipped, and an
    empty interface name stands for docker0. *)
Theorem getAgentAddr_first_ipv4 port ifaceName conn iface
    (pre post : list string) a ip :
  ResolveTCPAddr port = (conn, None) ->
  InterfaceByName (if bool_decide (ifaceName = EmptyString)
                   then "docker0" else ifaceName) = (iface, None) ->
  Addrs iface = (pre ++ a :: post, None) ->
  (forall x, x ∈ pre -> exists ip', ParseCIDR x = (ip', None) /\ To4 ip' = None) ->
  ParseCIDR a = (ip, None) ->
  To4 ip <> None ->
  getAgentAddr ResolveTCPAddr InterfaceByName ParseCIDR TCPAddr_String
               port ifaceName =
  (TCPAddr_String {| TCPIP := ip; Port := Port conn; Zone := Zone conn |}, None).
Proof.
  intros Hres Hif Haddrs Hpre Hparse Hv4.
  unfold getAgentAddr, defaultDockerIfaceName.
  rewrite Hres, Hif, Haddrs, (scan_skip conn pre (a :: post) Hpre).
  cbn [scan]. rewrite Hparse. rewrite bool_decide_eq_true_2 by exact Hv4.
  reflexivity.
Qed.

(** X26. An address that does not parse, met before any IPv4 address, makes
    [getAgentAddr] fail with the error of the parsing, even when an IPv4
    address follows it. *)
Theorem getAgentAddr_parse_error port ifaceName conn iface
    (pre post : list string) a ip e :
  ResolveTCPAddr port = (conn, None) ->
  InterfaceByName (if bool_decide (ifaceName = EmptyString)
                   then "docker0" else ifaceName) = (iface, None) ->
  Addrs iface = (pre ++ a :: post, None) ->
  (forall x, x ∈ pre -> exists ip', ParseCIDR x = (ip', None) /\ To4 ip' = None) ->
  ParseCIDR a = (ip, Some e) ->
  getAgentAddr ResolveTCPAddr InterfaceByName ParseCIDR TCPAddr_String
               port ifaceName = (EmptyString, Some e).
Proof.
  intros Hres Hif Haddrs Hpre Hparse.
  unfold getAgentAddr, defaultDockerIfaceName.
  rewrite Hres, Hif, Haddrs, (scan_skip conn pre (a :: post) Hpre).
  cbn [scan]. rewrite Hparse. reflexivity.
Qed.

(** X27. When the interface has no IPv4 address, all its addresses parsing,
    [getAgentAddr] fails with its own error; this covers the interface
    without addresses. *)
Theorem getAgentAddr_no_ipv4 port ifaceName conn iface (addrs : list string) :
  ResolveTCPAddr port = (conn, None) ->
  InterfaceByName (if bool_decide (ifaceName = EmptyString)
                   then "docker0" else ifaceName) = (iface, None) ->
  Addrs iface = (addrs, None) ->
  (forall x, x ∈ addrs -> exists ip', ParseCIDR x = (ip', None) /\ To4 ip' = None) ->
  getAgentAddr ResolveTCPAddr InterfaceByName ParseCIDR TCPAddr_String
               port ifaceName =
  (EmptyString, Some (errors.New "failed to determine Docker agent IP address")).
Proof.
  intros Hres Hif Haddrs Hall.
  unfold getAgentAddr, defaultDockerIfaceName.
  rewrite Hres, Hif, Haddrs.
  rewrite <- (app_nil_r addrs), (scan_skip conn addrs [] Hall). reflexivity.
Qed.

End agent_address.

(** ** Shutdown sequence: further properties *)

(** X28. When a start-up step fails (no configuration file argument, the
    configuration, the log, the backend, the results client or the queue
    writer), the exit code is 1, one message is written, and the agent
    neither cancels nor drains anything. *)
Theorem MainWithExitCode_startup_failure w :
  (Args w < 2)%nat \/ ReadConfig w <> None \/ logNew w <> None \/ bc w <> None \/
  resultsNew w <> None \/ NewWriter w <> None ->
  (MainWithExitCode w).1 = 1 /\
  length (MainWithExitCode w).2 = 1%nat /\
  cancelqr ∉ (MainWithExitCode w).2.
Proof.
  intros Hfail. unfold MainWithExitCode.
  destruct (Args w <? 2)%nat eqn:Hargs.
  { repeat split. simpl. intros H. apply list_elem_of_singleton in H. discriminate. }
  apply Nat.ltb_ge in Hargs.
  destruct (ReadConfig w) as [e|].
  { repeat split. simpl. intros H. apply list_elem_of_singleton in H. discriminate. }
  destruct (logNew w) as [e|].
  { repeat split. simpl. intros H. apply list_elem_of_singleton in H. discriminate. }
  destruct (bc w) as [e|].
  { repeat split. simpl. intros H. apply list_elem_of_singleton in H. discriminate. }
  destruct (resultsNew w) as [e|].
  { repeat split. simpl. intros H. apply list_elem_of_singleton in H. discriminate. }
  destruct (NewWriter w) as [e|].
  { repeat split. simpl. intros H. apply list_elem_of_singleton in H. discriminate. }
  exfalso. destruct Hfail as [H|[H|[H|[H|[H|H]]]]]; try congruence. lia.
Qed.

Lemma cancelqr_not_in_drain w : cancelqr ∉ (drain w).2.
Proof.
  unfold drain.
  repeat match goal with
         | |- context [if ?x then _ else _] => destruct x
         end; simpl;
    rewrite ?elem_of_app, ?elem_of_cons, ?elem_of_nil;
    intros H; repeat (destruct H as [H|H]; try discriminate); try exact H.
Qed.

(** X29. Once the agent has started, whichever of the signal and the idle
    tracker ends the select, the cancellation of the queue reader is
    invoked exactly once, and before anything the drain sequence logs. *)
Theorem MainWithExitCode_cancels_once w :
  (2 <= Args w)%nat ->
  ReadConfig w = None -> logNew w = None -> bc w = None ->
  resultsNew w = None -> NewWriter w = None ->
  exists pre,
    (MainWithExitCode w).2 = pre ++ (cancelqr :: (drain w).2) /\
    (cancelqr ∉ pre) /\
    (cancelqr ∉ (drain w).2).
Proof.
  intros Hargs Hcfg Hlog Hbc Hres Hwr. unfold MainWithExitCode.
  replace (Args w <? 2)%nat with false by (symmetry; apply Nat.ltb_ge; lia).
  rewrite Hcfg, Hlog, Hbc, Hres, Hwr.
  pose proof (cancelqr_not_in_drain w) as Hdrain.
  destruct (drain w) as [code out]. cbn [fst snd] in *.
  destruct (signalled w).
  - exists [Infof "agent running"]. split; [reflexivity|]. split; [|exact Hdrain].
    intros H. apply list_elem_of_singleton in H. discriminate.
  - exists [Infof "agent running";
            Infof "shutting down agent because of inactivity"].
    split; [reflexivity|]. split; [|exact Hdrain].
    rewrite !elem_of_cons, elem_of_nil.
    intros [H|[H|H]]; try discriminate. exact H.
Qed.

(** X30. Once the agent has started, when what the idle tracker and the queue
    reader report is nil or the cancellation error, the listener shuts
    down and the serve routine reports nil or server-closed, the drain
    sequence logs nothing and the exit code is 0. *)
Theorem MainWithExitCode_clean_shutdown w :
  (2 <= Args w)%nat ->
  ReadConfig w = None -> logNew w = None -> bc w = None ->
  resultsNew w = None -> NewWriter w = None ->
  (stopperDone w = None \/ IsNil (stopperDone w) context.Canceled = true) ->
  (qrdone w = None \/ IsNil (qrdone w) context.Canceled = true) ->
  Shutdown w = None ->
  (httpDone w = None \/ IsNil (httpDone w) http.ErrServerClosed = true) ->
  (MainWithExitCode w).1 = 0 /\
  (drain w).2 = [] /\
  forall msg, Errorf msg ∉ (MainWithExitCode w).2.
Proof.
  intros Hargs Hcfg Hlog Hbc Hres Hwr Hstop Hqr Hshut Hhttp.
  assert (Hdrain : drain w = (0, [])).
  { unfold drain. rewrite Hshut.
    rewrite (bool_decide_eq_false_2 (None <> None)) by (intros H; apply H; reflexivity).
    assert (H1 : bool_decide (stopperDone w <> None)
                 && negb (IsNil (stopperDone w) context.Canceled) = false).
    { destruct Hstop as [-> | ->]; [|apply andb_false_r].
      rewrite bool_decide_eq_false_2 by (intros H; apply H; reflexivity).
      reflexivity. }
    assert (H2 : bool_decide (qrdone w <> None)
                 && negb (IsNil (qrdone w) context.Canceled) = false).
    { destruct Hqr as [-> | ->]; [|apply andb_false_r].
      rewrite bool_decide_eq_false_2 by (intros H; apply H; reflexivity).
      reflexivity. }
    assert (H3 : bool_decide (httpDone w <> None)
                 && negb (IsNil (httpDone w) http.ErrServerClosed) = false).
    { destruct Hhttp as [-> | ->]; [|apply andb_false_r].
      rewrite bool_decide_eq_false_2 by (intros H; apply H; reflexivity).
      reflexivity. }
    rewrite H1, H2, H3. reflexivity. }
  unfold MainWithExitCode.
  replace (Args w <? 2)%nat with false by (symmetry; apply Nat.ltb_ge; lia).
  rewrite Hcfg, Hlog, Hbc, Hres, Hwr, Hdrain. cbn [fst snd].
  split; [reflexivity|]. split; [reflexivity|].
  intros msg. destruct (signalled w); simpl;
    rewrite ?elem_of_cons, ?elem_of_nil;
    intros H; repeat (destruct H as [H|H]; try discriminate); exact H.
Qed.

(** ** Concrete runs of the further properties *)

Lemma Run_pull_exhausted_witness :
  exists st,
    (forall fuel, (3 < fuel)%nat ->
       Run sample.names sample.NewExponential fuel
           (sample.backend "registry.example" None
              (fun _ => Some (errors.New "denied")))
           sample.params = Some st) /\
    res st = None /\
    err st = Some (errors.New "backoff retry exceeded pulling Docker image") /\
    pulls (events st) = replicate 3 (Image sample.params) /\
    errorfs (events st) =
      replicate 3 ("Error pulling Docker image " +:+ Image sample.params) /\
    creates (events st) = [] /\
    sent (events st) = [].
Proof.
  apply (Run_pull_exhausted sample.names sample.NewExponential
           (sample.backend "registry.example" None
              (fun _ => Some (errors.New "denied")))
           sample.params 3).
  - discriminate.
  - intros i Hi.
    assert (i = 0 \/ i = 1 \/ i = 2)%nat as [-> | [-> | ->]] by lia;
      (split; [reflexivity|discriminate]).
  - reflexivity.
Defined.

Lemma Run_after_pull_witness :
  let b := sample.backend "registry.example" None
             (fun i => if (i =? 0)%nat then Some (errors.New "timeout") else None) in
  exists st,
    (forall fuel, (1 < fuel)%nat ->
       Run sample.names sample.NewExponential fuel b sample.params = Some st) /\
    res st = Some (sent (run sample.names b sample.params)) /\
    err st = None /\
    events st = failed_pulls 1 (Image sample.params)
                  ++ EvPull Caller (Image sample.params)
                  :: run sample.names b sample.params /\
    pulls (events st) = replicate 2 (Image sample.params).
Proof.
  intros b.
  apply (Run_after_pull sample.names sample.NewExponential b sample.params 1).
  - discriminate.
  - intros i Hi. assert (i = 0)%nat as -> by lia.
    split; [reflexivity|discriminate].
  - reflexivity.
  - reflexivity.
Defined.

Lemma Run_without_registry_witness :
  let b := sample.backend "" None (fun _ => None) in
  exists st,
    Run sample.names sample.NewExponential 0 b sample.params = Some st /\
    res st = Some (sent (run sample.names b sample.params)) /\
    err st = None /\
    events st = run sample.names b sample.params /\
    pulls (events st) = [].
Proof.
  intros b.
  apply (Run_without_registry sample.names sample.NewExponential 0 b sample.params).
  reflexivity.
Defined.

(** A client like the sample one in which the calls fail as given. *)
Lemma run_create_failure_witness :
  let b := {| config := config (sample.backend "" None (fun _ => None));
              agentAddr := "172.17.0.1:8080";
              checkVars := ∅;
              cli := {| Create := fun _ _ => (EmptyString, Some (errors.New "no such image"));
                        ContainerStop := fun _ => None;
                        ContainerRemove := fun _ => None;
                        ContainerStart := fun _ => None;
                        ContainerWait := fun _ => (0, None);
                        ContainerLogs := fun _ => (sample.logs, None);
                        Pull := fun _ _ => None |} |} in
  run sample.names b sample.params =
    [EvCreate Caller (getRunConfig sample.names b sample.params)
              (CheckID sample.params);
     EvSend {| Output := []; Error := Some (errors.New "no such image") |}] /\
  starts (run sample.names b sample.params) = [] /\
  removals (run sample.names b sample.params) = [].
Proof.
  intros b.
  apply (run_create_failure sample.names b sample.params EmptyString
           (errors.New "no such image")).
  reflexivity.
Defined.

Lemma run_start_failure_witness :
  let b := {| config := config (sample.backend "" None (fun _ => None));
              agentAddr := "172.17.0.1:8080";
              checkVars := ∅;
              cli := {| Create := fun _ _ => ("c1", None);
                        ContainerStop := fun _ => None;
                        ContainerRemove := fun _ => None;
                        ContainerStart := fun _ => Some (errors.New "port in use");
                        ContainerWait := fun _ => (0, None);
                        ContainerLogs := fun _ => (sample.logs, None);
                        Pull := fun _ _ => None |} |} in
  exists e',
    run sample.names b sample.params =
      EvCreate Caller (getRunConfig sample.names b sample.params)
               (CheckID sample.params)
        :: EvContainerStart Caller "c1"
        :: EvSend {| Output := []; Error := Some e' |}
        :: cleanup b sample.params "c1" (Some (errors.New "port in use")) /\
    errors.Unwrap e' = Some (errors.New "port in use") /\
    Is e' (errors.New "port in use") = true /\
    errors.Error e' = "error starting container for check check-1: port in use" /\
    waits (run sample.names b sample.params) = [] /\
    removals (run sample.names b sample.params) = [(Background, "c1", true)].
Proof.
  intros b.
  apply (run_start_failure sample.names b sample.params "c1"
           (errors.New "port in use")); reflexivity.
Defined.

Lemma run_wait_failure_witness :
  let b := sample.backend "" (Some (errors.New "daemon gone")) (fun _ => None) in
  exists e',
    sent (run sample.names b sample.params) = [{| Output := []; Error := Some e' |}] /\
    errors.Unwrap e' = Some (errors.New "daemon gone") /\
    Is e' (errors.New "daemon gone") = true /\
    stops (run sample.names b sample.params) = [] /\
    collected (run sample.names b sample.params) = [] /\
    removals (run sample.names b sample.params) = [(Background, "c1", true)].
Proof.
  intros b.
  apply (run_wait_failure sample.names b sample.params "c1"
           (errors.New "daemon gone")); reflexivity.
Defined.

Lemma run_logs_failure_witness :
  let b := {| config := config (sample.backend "" None (fun _ => None));
              agentAddr := "172.17.0.1:8080";
              checkVars := ∅;
              cli := {| Create := fun _ _ => ("c1", None);
                        ContainerStop := fun _ => None;
                        ContainerRemove := fun _ => None;
                        ContainerStart := fun _ => None;
                        ContainerWait := fun _ => (0, None);
                        ContainerLogs := fun _ =>
                          (sample.logs, Some (errors.New "no such container"));
                        Pull := fun _ _ => None |} |} in
  exists e',
    sent (run sample.names b sample.params) = [{| Output := []; Error := Some e' |}] /\
    errors.Unwrap e' = Some (errors.New "no such container") /\
    Is e' (errors.New "no such container") = true /\
    closes (run sample.names b sample.params) = 0%nat /\
    removals (run sample.names b sample.params) = [(Background, "c1", true)].
Proof.
  intros b.
  apply (run_logs_failure sample.names b sample.params "c1" sample.logs
           (errors.New "no such container")); reflexivity.
Defined.

Lemma run_read_failure_witness :
  let r := {| stdcopy.frames :=
                [ {| stdcopy.tag := stdcopy.Stdout; stdcopy.payload := [Byte.x6f] |};
                  {| stdcopy.tag := stdcopy.Unrecognized; stdcopy.payload := [] |} ];
              stdcopy.failure := None |} in
  let b := {| config := config (sample.backend "" None (fun _ => None));
              agentAddr := "172.17.0.1:8080";
              checkVars := ∅;
              cli := {| Create := fun _ _ => ("c1", None);
                        ContainerStop := fun _ => None;
                        ContainerRemove := fun _ => None;
                        ContainerStart := fun _ => None;
                        ContainerWait := fun _ => (0, None);
                        ContainerLogs := fun _ => (r, None);
                        Pull := fun _ _ => None |} |} in
  exists e',
    run sample.names b sample.params =
      EvCreate Caller (getRunConfig sample.names b sample.params)
               (CheckID sample.params)
        :: EvContainerStart Caller "c1"
        :: EvContainerWait Caller "c1"
        :: EvContainerLogs Caller "c1" true true
        :: EvSend {| Output := []; Error := Some e' |}
        :: EvClose
        :: cleanup b sample.params "c1"
             (Some (errors.New "Unrecognized input header")) /\
    errors.Unwrap e' = Some (errors.New "Unrecognized input header") /\
    Is e' (errors.New "Unrecognized input header") = true /\
    closes (run sample.names b sample.params) = 1%nat /\
    removals (run sample.names b sample.params) = [(Background, "c1", true)].
Proof.
  intros r b.
  apply (run_read_failure sample.names b sample.params "c1" r
           (errors.New "Unrecognized input header")); reflexivity.
Defined.

Lemma run_stops_iff_cancelled_witness :
  stops (run sample.names
             (sample.backend "" (Some context.DeadlineExceeded) (fun _ => None))
             sample.params) = [(Background, "c1", abortTimeout)] /\
  stops (run sample.names (sample.backend "" None (fun _ => None))
             sample.params) = [].
Proof.
  split.
  - apply (run_stops_iff_cancelled sample.names
             (sample.backend "" (Some context.DeadlineExceeded) (fun _ => None))
             sample.params "c1"); reflexivity.
  - apply (run_stops_iff_cancelled sample.names
             (sample.backend "" None (fun _ => None)) sample.params "c1");
      reflexivity.
Defined.


Lemma readContainerLogs_success_witness :
  let r := {| stdcopy.frames :=
                [ {| stdcopy.tag := stdcopy.Stderr; stdcopy.payload := [Byte.x77] |};
                  {| stdcopy.tag := stdcopy.Stdout; stdcopy.payload := [Byte.x6f] |};
                  {| stdcopy.tag := stdcopy.Stdin; stdcopy.payload := [Byte.x69] |};
                  {| stdcopy.tag := stdcopy.Stderr; stdcopy.payload := [Byte.x65] |};
                  {| stdcopy.tag := stdcopy.Stdout; stdcopy.payload := [Byte.x6b] |} ];
              stdcopy.failure := None |} in
  readContainerLogs r =
    ([Byte.x6f; Byte.x69; Byte.x6b; Byte.x0a; Byte.x77; Byte.x65], None) /\
  (1 <= length (readContainerLogs r).1)%nat.
Proof.
  intros r.
  apply (readContainerLogs_success r).
  - reflexivity.
  - repeat (constructor; [discriminate|]). constructor.
Defined.

Lemma readContainerLogs_failure_witness :
  exists e,
    readContainerLogs
      {| stdcopy.frames :=
           [ {| stdcopy.tag := stdcopy.Stdout; stdcopy.payload := [Byte.x6f] |} ];
         stdcopy.failure := Some (errors.New "unexpected EOF") |} = ([], Some e).
Proof.
  apply (readContainerLogs_failure
           {| stdcopy.frames :=
                [ {| stdcopy.tag := stdcopy.Stdout; stdcopy.payload := [Byte.x6f] |} ];
              stdcopy.failure := Some (errors.New "unexpected EOF") |}).
  left. discriminate.
Defined.

(** An interface with an IPv6 address, then an IPv4 address in its
    sixteen-byte form, then an address that does not parse. *)
Lemma getAgentAddr_first_ipv4_witness :
  let v6 := Byte.xfe :: Byte.x80 :: replicate 13 Byte.x00 ++ [Byte.x01] in
  let v4 := replicate 10 Byte.x00
              ++ [Byte.xff; Byte.xff; Byte.xac; Byte.x11; Byte.x00; Byte.x01] in
  let resolve := fun _ : string => ({| TCPIP := []; Port := 8080; Zone := EmptyString |}, None) in
  let byname := fun name : string =>
    if bool_decide (name = "docker0")
    then ({| Addrs := (["fe80::1/64"; "172.17.0.1/16"; "bad"], None) |}, None)
    else ({| Addrs := ([], None) |}, Some (errors.New "no such network interface")) in
  let parse := fun a : string =>
    if bool_decide (a = "fe80::1/64") then (v6, None)
    else if bool_decide (a = "172.17.0.1/16") then (v4, None)
    else ([], Some (errors.New "invalid CIDR address")) in
  let show := fun a : TCPAddr => "172.17.0.1:8080" in
  getAgentAddr resolve byname parse show ":8080" EmptyString =
  (show {| TCPIP := v4; Port := 8080; Zone := EmptyString |}, None).
Proof.
  intros v6 v4 resolve byname parse show.
  apply (getAgentAddr_first_ipv4 resolve byname parse show ":8080" EmptyString
           {| TCPIP := []; Port := 8080; Zone := EmptyString |}
           {| Addrs := (["fe80::1/64"; "172.17.0.1/16"; "bad"], None) |}
           ["fe80::1/64"] ["bad"] "172.17.0.1/16" v4).
  - reflexivity.
  - reflexivity.
  - reflexivity.
  - intros x Hx. apply list_elem_of_singleton in Hx. subst x.
    exists v6. split; reflexivity.
  - reflexivity.
  - vm_compute. discriminate.
Defined.

Lemma getAgentAddr_parse_error_witness :
  let v4 := [Byte.xac; Byte.x11; Byte.x00; Byte.x01] in
  let resolve := fun _ : string => ({| TCPIP := []; Port := 8080; Zone := EmptyString |}, None) in
  let byname := fun _ : string => ({| Addrs := (["bad"; "172.17.0.1/16"], None) |}, None) in
  let parse := fun a : string =>
    if bool_decide (a = "172.17.0.1/16") then (v4, None)
    else ([], Some (errors.New "invalid CIDR address")) in
  let show := fun a : TCPAddr => "172.17.0.1:8080" in
  getAgentAddr resolve byname parse show ":8080" "eth0" =
  (EmptyString, Some (errors.New "invalid CIDR address")).
Proof.
  intros v4 resolve byname parse show.
  apply (getAgentAddr_parse_error resolve byname parse show ":8080" "eth0"
           {| TCPIP := []; Port := 8080; Zone := EmptyString |}
           {| Addrs := (["bad"; "172.17.0.1/16"], None) |}
           [] ["172.17.0.1/16"] "bad" []).
  - reflexivity.
  - reflexivity.
  - reflexivity.
  - intros x Hx. apply elem_of_nil in Hx. destruct Hx.
  - reflexivity.
Defined.

Lemma getAgentAddr_no_ipv4_witness :
  let linklocal := Byte.xfe :: Byte.x80 :: replicate 13 Byte.x00 ++ [Byte.x01] in
  let loopback := replicate 15 Byte.x00 ++ [Byte.x01] in
  let resolve := fun _ : string => ({| TCPIP := []; Port := 8080; Zone := EmptyString |}, None) in
  let byname := fun _ : string => ({| Addrs := (["fe80::1/64"; "::1/128"], None) |}, None) in
  let parse := fun a : string =>
    if bool_decide (a = "fe80::1/64") then (linklocal, None)
    else if bool_decide (a = "::1/128") then (loopback, None)
    else ([], Some (errors.New "invalid CIDR address")) in
  let show := fun a : TCPAddr => ":8080" in
  getAgentAddr resolve byname parse show ":8080" "eth0" =
  (EmptyString, Some (errors.New "failed to determine Docker agent IP address")).
Proof.
  intros linklocal loopback resolve byname parse show.
  apply (getAgentAddr_no_ipv4 resolve byname parse show ":8080" "eth0"
           {| TCPIP := []; Port := 8080; Zone := EmptyString |}
           {| Addrs := (["fe80::1/64"; "::1/128"], None) |}
           ["fe80::1/64"; "::1/128"]).
  - reflexivity.
  - reflexivity.
  - reflexivity.
  - intros x Hx. apply elem_of_cons in Hx. destruct Hx as [-> | Hx].
    + exists linklocal. split; reflexivity.
    + apply list_elem_of_singleton in Hx. subst x.
      exists loopback. split; reflexivity.
Defined.

Lemma MainWithExitCode_startup_failure_witness :
  let w := {| Args := 2; ReadConfig := None; logNew := None;
              bc := Some (errors.New "cannot reach the docker daemon");
              resultsNew := None; NewWriter := None;
              signalled := true; stopperFirst := None; stopperDone := None;
              qrdone := None; Shutdown := None; httpDone := None |} in
  (MainWithExitCode w).1 = 1 /\
  length (MainWithExitCode w).2 = 1%nat /\
  (cancelqr ∉ (MainWithExitCode w).2).
Proof.
  intros w. apply (MainWithExitCode_startup_failure w).
  right. right. right. left. discriminate.
Defined.

Lemma MainWithExitCode_cancels_once_witness :
  let w := {| Args := 2; ReadConfig := None; logNew := None; bc := None;
              resultsNew := None; NewWriter := None;
              signalled := false; stopperFirst := None;
              stopperDone := Some (errors.New "tracker failed");
              qrdone := Some context.Canceled; Shutdown := None;
              httpDone := Some http.ErrServerClosed |} in
  exists pre,
    (MainWithExitCode w).2 = pre ++ (cancelqr :: (drain w).2) /\
    (cancelqr ∉ pre) /\
    (cancelqr ∉ (drain w).2).
Proof.
  intros w. apply (MainWithExitCode_cancels_once w); try reflexivity.
Defined.

Lemma MainWithExitCode_clean_shutdown_witness :
  let w := {| Args := 2; ReadConfig := None; logNew := None; bc := None;
              resultsNew := None; NewWriter := None;
              signalled := true; stopperFirst := None;
              stopperDone := Some context.Canceled;
              qrdone := Some (Errorf_w "reading: " context.Canceled);
              Shutdown := None;
              httpDone := Some http.ErrServerClosed |} in
  (MainWithExitCode w).1 = 0 /\
  (drain w).2 = [] /\
  forall msg, Errorf msg ∉ (MainWithExitCode w).2.
Proof.
  intros w. apply (MainWithExitCode_clean_shutdown w); try reflexivity.
  - right. reflexivity.
  - right. reflexivity.
  - right. reflexivity.
Defined.

(** ** The result of a run, step by step *)

Section run_result.

Variable names : VarNames.
Variable NewExponential : Z -> Z -> backoff.Policy.

(** The one value the routine sends is the result of the step that ends
    the run: the error of the creation as it is; the error of the start,
    of the wait, of the request for the logs or of their reading, wrapped;
    the error of the wait as it is when it is the cancellation or the
    deadline error; or the output, when every step succeeds. *)
Lemma run_result b params :
  sent (run names b params) =
  [ match Create (cli b) (getRunConfig names b params) (CheckID params) with
    | (_, Some e) => {| Output := []; Error := Some e |}
    | (contID, None) =>
      match ContainerStart (cli b) contID with
      | Some e =>
        {| Output := [];
           Error := Some (Errorf_w ("error starting container for check "
                                    +:+ CheckID params +:+ ": ") e) |}
      | None =>
        match (ContainerWait (cli b) contID).2 with
        | Some e =>
          if Is e context.Canceled || Is e context.DeadlineExceeded
          then {| Output := []; Error := Some e |}
          else {| Output := [];
                  Error := Some (Errorf_w ("error running container for check "
                                           +:+ CheckID params +:+ ": ") e) |}
        | None =>
          match ContainerLogs (cli b) contID with
          | (_, Some e) =>
            {| Output := [];
               Error := Some (Errorf_w ("error getting logs for check "
                                        +:+ CheckID params +:+ ": ") e) |}
          | (logs, None) =>
            match stdcopy.StdCopy logs with
            | (_, _, Some e) =>
              {| Output := [];
                 Error := Some (Errorf_w ("error reading logs for check "
                                          +:+ CheckID params +:+ ": ") e) |}
            | (bout, berr, None) =>
              {| Output := bout ++ [Byte.x0a] ++ berr; Error := None |}
            end
          end
        end
      end
    end ].
Proof.
  unfold run.
  destruct (Create (cli b) (getRunConfig names b params) (CheckID params))
    as [contID [e|]]; [reflexivity|].
  destruct (ContainerStart (cli b) contID) as [e|].
  { cbn [sent omap list_omap]. rewrite sent_cleanup. reflexivity. }
  destruct (ContainerWait (cli b) contID) as [status [e|]]; cbn [snd IsNil].
  - rewrite bool_decide_eq_true_2 by discriminate.
    destruct (Is e context.Canceled), (Is e context.DeadlineExceeded);
      cbn [andb orb negb sent omap list_omap];
      rewrite sent_cleanup; reflexivity.
  - rewrite bool_decide_eq_false_2 by (intros H; apply H; reflexivity).
    cbn [andb orb negb].
    destruct (ContainerLogs (cli b) contID) as [logs [e|]].
    { cbn [sent omap list_omap]. rewrite sent_cleanup. reflexivity. }
    unfold readContainerLogs.
    destruct (stdcopy.StdCopy logs) as [[bout berr] [e|]];
      cbn [sent omap list_omap]; rewrite sent_cleanup; reflexivity.
Qed.

(** C4, amended.  [Run] returns once the image pull has ended: no registry
    is configured, or an attempt succeeds, or the backoff controller is
    done.  When no pull is needed or the pull succeeds, [Run] returns a
    nil error and a channel on which exactly one value is sent, the result
    of the step that ends the run: the error of the creation, of the
    start, of the wait, of the request for the logs or of their reading,
    or the output.  When the pull fails, [Run] returns the nil channel and
    the error of the pull, and nothing is sent. *)
Theorem Run_delivers_once b params :
  let policy := NewExponential (BackoffInterval (config b))
                               (BackoffMaxRetries (config b)) in
  let pulled := fun k : nat =>
    (forall i, (i < k)%nat ->
       backoff.Continue policy i = true /\
       Pull (cli b) i (Image params) <> None) /\
    backoff.Continue policy k = true /\
    Pull (cli b) k (Image params) = None in
  let refused := fun m : nat =>
    (forall i, (i < m)%nat ->
       backoff.Continue policy i = true /\
       Pull (cli b) i (Image params) <> None) /\
    backoff.Continue policy m = false in
  Server (config b) = "" \/ (exists k, pulled k) \/ (exists m, refused m) ->
  exists fuel0 st,
    (forall fuel, (fuel0 <= fuel)%nat ->
       Run names NewExponential fuel b params = Some st) /\
    (Server (config b) = "" \/
     (Server (config b) <> "" /\ exists k, pulled k) ->
     err st = None /\
     exists r,
       res st = Some [r] /\
       sent (events st) = [r] /\
       r =
       match Create (cli b) (getRunConfig names b params) (CheckID params) with
       | (_, Some e) => {| Output := []; Error := Some e |}
       | (contID, None) =>
         match ContainerStart (cli b) contID with
         | Some e =>
           {| Output := [];
              Error := Some (Errorf_w ("error starting container for check "
                                       +:+ CheckID params +:+ ": ") e) |}
         | None =>
           match (ContainerWait (cli b) contID).2 with
           | Some e =>
             if Is e context.Canceled || Is e context.DeadlineExceeded
             then {| Output := []; Error := Some e |}
             else {| Output := [];
                     Error := Some (Errorf_w ("error running container for check "
                                              +:+ CheckID params +:+ ": ") e) |}
           | None =>
             match ContainerLogs (cli b) contID with
             | (_, Some e) =>
               {| Output := [];
                  Error := Some (Errorf_w ("error getting logs for check "
                                           +:+ CheckID params +:+ ": ") e) |}
             | (logs, None) =>
               match stdcopy.StdCopy logs with
               | (_, _, Some e) =>
                 {| Output := [];
                    Error := Some (Errorf_w ("error reading logs for check "
                                             +:+ CheckID params +:+ ": ") e) |}
               | (bout, berr, None) =>
                 {| Output := bout ++ [Byte.x0a] ++ berr; Error := None |}
               end
             end
           end
         end
       end) /\
    (Server (config b) <> "" /\ (exists m, refused m) ->
     res st = None /\
     err st = Some (errors.New "backoff retry exceeded pulling Docker image") /\
     sent (events st) = []).
Proof.
  intros policy pulled refused Hends.
  (* an attempt cannot both succeed and find the controller done *)
  assert (Hexcl : forall k m, pulled k -> refused m -> False).
  { intros k m (Hk & Hck & Hpk) (Hm & Hcm).
    destruct (Nat.lt_trichotomy k m) as [Hlt|[Heq|Hgt]].
    - destruct (Hm k Hlt) as [_ Hp]. congruence.
    - subst m. congruence.
    - destruct (Hk m Hgt) as [Hc _]. congruence. }
  destruct (decide (Server (config b) = "")) as [Hsrv|Hsrv].
  - (* no registry: the routine starts at once *)
    exists 0%nat, {| res := Some (sent (run names b params)); err := None;
                     events := run names b params |}.
    split; [|split].
    + intros fuel _. unfold Run.
      rewrite bool_decide_eq_false_2 by (intros H; apply H, Hsrv). reflexivity.
    + intros _. split; [reflexivity|].
      eexists. split; [|split].
      * cbn [res]. rewrite run_result. reflexivity.
      * cbn [events]. rewrite run_result. reflexivity.
      * reflexivity.
    + intros [Hne _]. congruence.
  - destruct Hends as [Hends|[[k Hk]|[m Hm]]]; [congruence| |].
    + (* the pull succeeds at attempt k *)
      pose proof Hk as (Hfail & Hgrant & Hok).
      exists (S k),
        {| res := Some (sent (run names b params)); err := None;
           events := (failed_pulls k (Image params)
                        ++ [EvPull Caller (Image params)])
                       ++ run names b params |}.
      split; [|split].
      * intros fuel Hfuel. unfold Run, pullWithBackoff.
        rewrite bool_decide_eq_true_2 by exact Hsrv.
        replace fuel with (k + S (fuel - k - 1))%nat by lia.
        rewrite pull_loop_failed by (intros i Hi; simpl; apply Hfail, Hi).
        cbn [pull_loop Nat.add]. fold policy. rewrite Hgrant, Hok. reflexivity.
      * intros _. split; [reflexivity|].
        eexists. split; [|split].
        -- cbn [res]. rewrite run_result. reflexivity.
        -- cbn [events]. rewrite !sent_app, sent_failed_pulls, run_result.
           reflexivity.
        -- reflexivity.
      * intros [_ [m Hm]]. exfalso. exact (Hexcl k m Hk Hm).
    + (* every attempt fails until the controller is done *)
      pose proof Hm as (Hfail & Hdone).
      exists (S m),
        {| res := None;
           err := Some (errors.New "backoff retry exceeded pulling Docker image");
           events := failed_pulls m (Image params) |}.
      split; [|split].
      * intros fuel Hfuel. unfold Run, pullWithBackoff.
        rewrite bool_decide_eq_true_2 by exact Hsrv.
        replace fuel with (m + S (fuel - m - 1))%nat by lia.
        rewrite pull_loop_failed by (intros i Hi; simpl; apply Hfail, Hi).
        cbn [pull_loop Nat.add]. fold policy. rewrite Hdone, app_nil_r.
        reflexivity.
      * intros [Hempty|[_ [k Hk]]]; [congruence|].
        exfalso. exact (Hexcl k m Hk Hm).
      * intros _. split; [reflexivity|]. split; [reflexivity|].
        apply sent_failed_pulls.
Qed.

End run_result.

(** The amended C4 on a run whose first pull fails and whose second pull
    succeeds, after which the check writes "ok" and "w": one value is
    sent, the output. *)
Lemma Run_delivers_once_witness :
  let b := sample.backend "registry.example" None
             (fun i => if (i =? 0)%nat then Some (errors.New "timeout") else None) in
  exists fuel0 st,
    (forall fuel, (fuel0 <= fuel)%nat ->
       Run sample.names sample.NewExponential fuel b sample.params = Some st) /\
    err st = None /\
    res st = Some [{| Output := [Byte.x6f; Byte.x6b; Byte.x0a; Byte.x77];
                      Error := None |}] /\
    sent (events st) = [{| Output := [Byte.x6f; Byte.x6b; Byte.x0a; Byte.x77];
                           Error := None |}].
Proof.
  intros b.
  assert (Hpulled :
    (forall i, (i < 1)%nat ->
       backoff.Continue (sample.NewExponential (BackoffInterval (config b))
                                               (BackoffMaxRetries (config b))) i
         = true /\
       Pull (cli b) i (Image sample.params) <> None) /\
    backoff.Continue (sample.NewExponential (BackoffInterval (config b))
                                            (BackoffMaxRetries (config b))) 1
      = true /\
    Pull (cli b) 1 (Image sample.params) = None).
  { split; [|split; reflexivity].
    intros i Hi. assert (i = 0)%nat as -> by lia.
    split; [reflexivity|discriminate]. }
  destruct (Run_delivers_once sample.names sample.NewExponential b sample.params)
    as (fuel0 & st & Hrun & Hok & _).
  - right. left. exists 1%nat. exact Hpulled.
  - destruct Hok as (Herr & r & Hres & Hsent & Hr).
    + right. split; [discriminate|]. exists 1%nat. exact Hpulled.
    + exists fuel0, st. vm_compute in Hr. subst r.
      split; [exact Hrun|]. split; [exact Herr|]. split; [exact Hres|exact Hsent].
Defined.
